(** * Spot-TV remote control connection: a model of the thunks in
    [spot-tv/app-state/actions] and of the [setup] reducer.

    The asynchronous code is embedded by explicit state passing.  Every
    function returns the list of effects it performs, in program order,
    together with how its promise settles.  What the collaborators answer
    (the redux state read by [getState()], the outcome of the transport's
    [connect], the random sample behind the jitter) is an input. *)

From Stdlib Require Import ZArith Bool List.
From stdpp Require Import base strings gmap.
Import ListNotations.

Local Open Scope string_scope.
Local Open Scope Z_scope.
Local Open Scope list_scope.

(** ** JavaScript values that the thunks look at *)

(** What a promise is rejected with, or what is thrown: the thunks reject
    with plain strings, the transport may reject with strings or objects,
    and a property read on [undefined] throws a [TypeError]. *)
Inductive error : Type :=
| ErrString (s : string)
| ErrObject (name message : string)
| TypeError (message : string).

(** An optional string argument: [None] is [undefined]. *)
Definition truthy (s : option string) : bool :=
  match s with
  | None => false
  | Some v => negb (String.eqb v "")
  end.

(** An object reference that may be [null]. *)
Definition nonNull {A : Type} (o : option A) : bool :=
  match o with
  | None => false
  | Some _ => true
  end.

(** State of a promise when it is looked at. *)
Inductive promise (A : Type) : Type :=
| Fulfilled (a : A)
| Rejected (e : error)
| Pending.
Arguments Fulfilled {A} a.
Arguments Rejected {A} e.
Arguments Pending {A}.

Record roomProfile : Type := { id : string; name : string }.

Record pairingCodeInfo : Type := { code : string; expires : Z }.

(** The part of the redux state the thunks read through selectors. *)
Record appState : Type := {
  backendEnabled : bool;               (* isBackendEnabled(state) *)
  joinCodeRefreshRateOf : Z;           (* getJoinCodeRefreshRate(state) *)
  remoteControlServerConfig : string;  (* getRemoteControlServerConfig(state) *)
  spotServicesConfig : string;         (* getSpotServicesConfig(state) *)
  longLivedPairingCodeInfo : option pairingCodeInfo
                                       (* getLongLivedPairingCodeInfo(state) *)
}.

(** The options object handed to [remoteControlServer.connect]. *)
Record connectOptions : Type := {
  backend : option string;   (* new SpotTvBackendService(config), or null *)
  joinAsSpot : bool;
  joinCodeRefreshRate : Z;
  joinCode : option string;
  serverConfig : string
}.

(** The object [createConnection] resolves with. *)
Record connectionResult : Type := {
  permanentPairingCode : option string;
  remoteJoinCode : string;
  resultRoomProfile : option roomProfile;
  tenant : option string;
  jwt : option string
}.

(** ** Effects *)

Inductive action : Type :=
| destroyConnection
| setRemoteJoinCode (joinCode : string)
| clearAllPairedRemotes
| setPermanentPairingCode (pairingCode : option string)
| setJwt (jwt : option string)
| setTenant (tenant : option string)
| setSpotInstanceInfo (isPairingPermanent isSpotTv : bool) (roomId : string)
| setDisplayName (name : string)
| addPairedRemote (id type : string)
| removePairedRemote (id : string)
| setLongLivedPairingCodeInfo (info : pairingCodeInfo).

Inductive serviceUpdate : Type :=
| UNRECOVERABLE_DISCONNECT
| REMOTE_JOIN_CODE_CHANGE
| REGISTRATION_UPDATED
| CLIENT_JOINED
| CLIENT_LEFT.

Inductive handler : Type :=
| onDisconnectH
| onRemoteJoinCodeChangeH
| onRegistrationChangeH
| onRemoteConnectedH
| onRemoteDisconnectedH.

Inductive effect : Type :=
| Dispatch (a : action)
| LogError (message : string)
| LogInfo (message : string)
| LogReconnect (jitter : Z)
| AddListener (u : serviceUpdate) (h : handler)
| TransportConnect (o : connectOptions)
| TransportDisconnect
| TransportGenerateLongLivedPairingCode
| GetJitterDelay (retry : Z)
| SetTimeout (ms : Z).

Definition isTransportConnect (e : effect) : bool :=
  match e with TransportConnect _ => true | _ => false end.

Definition isGenerateRequest (e : effect) : bool :=
  match e with TransportGenerateLongLivedPairingCode => true | _ => false end.

Definition isDispatch (e : effect) : bool :=
  match e with Dispatch _ => true | _ => false end.

Definition isAddListener (e : effect) : bool :=
  match e with AddListener _ _ => true | _ => false end.

Definition countOf (p : effect -> bool) (t : list effect) : nat :=
  length (List.filter p t).

(** ** What the environment answers during one connect attempt *)

Record attempt : Type := {
  stateAtConnect : appState;      (* getState() inside doConnect *)
  connectAnswer : promise (option roomProfile);
                                  (* how remoteControlServer.connect settles *)
  joinCodeAnswer : string;        (* remoteControlServer.getRemoteJoinCode() *)
  backendTenant : option string;  (* backend.getTenant() *)
  backendJwt : option string;     (* backend.getJwt() *)
  stateAtSuccess : appState;      (* getState() inside onSuccessfulConnect *)
  jitterSample : Z                (* the random draw behind getJitterDelay *)
}.

(** ** The closure of one [createSpotTVRemoteControlConnection] call *)

Record closure : Type := {
  pairingCode : option string;
  retry : bool;
  initiallyConnected : bool
}.

(** [createSpotTVRemoteControlConnection({ pairingCode, retry })] up to the
    [return]: it binds the two arguments and [let initiallyConnected = false]. *)
Definition newClosure (pairingCode : option string) (retry : bool) : closure :=
  {| pairingCode := pairingCode; retry := retry; initiallyConnected := false |}.

Definition setInitiallyConnected (c : closure) (b : bool) : closure :=
  {| pairingCode := pairingCode c; retry := retry c; initiallyConnected := b |}.

(** The condition of the second branch of [onDisconnect]. *)
Definition gate (c : closure) : bool := retry c || initiallyConnected c.

(** What [onDisconnect] ends with: it throws, or it returns a promise that
    runs [doConnect] once the timer has fired. *)
Inductive disconnectOutcome : Type :=
| Throw (e : error)
| RetryAfter (jitter : Z).

(** What one pass through [doConnect] ends with. *)
Inductive attemptOutcome : Type :=
| Done (p : promise unit)
| Again (jitter : Z).

Definition validationMessage : string :=
  "The pairing code is required when the backend is enabled".

Definition alreadyConnectedMessage : string :=
  "Called to create connection while connection exists".

(** The first four statements of [onDisconnect], common to its branches. *)
Definition teardown : list effect :=
  [ LogError "Spot-TV disconnected from the remote control server.";
    Dispatch destroyConnection;
    Dispatch (setRemoteJoinCode "");
    Dispatch clearAllPairedRemotes ].

(** Components of what a thunk returns. *)
Definition closureOf {A : Type} (r : closure * list effect * A) : closure :=
  fst (fst r).
Definition traceOf {A : Type} (r : closure * list effect * A) : list effect :=
  snd (fst r).
Definition outcomeOf {A : Type} (r : closure * list effect * A) : A :=
  snd r.

(** The arguments [getJitterDelay] was called with, and the delays handed
    to [setTimeout], in a trace. *)
Definition jitterArgs (t : list effect) : list Z :=
  flat_map (fun e => match e with GetJitterDelay n => [n] | _ => [] end) t.

Definition timeouts (t : list effect) : list Z :=
  flat_map (fun e => match e with SetTimeout ms => [ms] | _ => [] end) t.

(** Functions the module imports and does not define:
    [remoteControlServer.isUnrecoverableRequestError], and [getJitterDelay]
    of common/utils, which draws a random number: the draw is its second
    argument here. *)
Record imports : Type := {
  isUnrecoverableRequestError : error -> bool;
  getJitterDelay : Z -> Z -> Z
}.

Section Thunks.

Variable deps : imports.

Definition onSuccessfulConnect (c : closure) (result : connectionResult)
    (st : appState) : closure * list effect * option error :=
  let c' := setInitiallyConnected c true in
  let dispatched :=
    [ Dispatch (setRemoteJoinCode (remoteJoinCode result));
      Dispatch (setJwt (jwt result));
      Dispatch (setTenant (tenant result));
      Dispatch (setPermanentPairingCode (permanentPairingCode result)) ] in
  if backendEnabled st then
    match resultRoomProfile result with
    | Some rp =>
        (c',
         dispatched ++ [ Dispatch (setSpotInstanceInfo true true (id rp));
                         Dispatch (setDisplayName (name rp)) ],
         None)
    | None =>
        (c', dispatched,
         Some (TypeError "Cannot read properties of undefined (reading 'id')"))
    end
  else (c', dispatched, None).

Definition onRemoteConnected (id type : string) : list effect :=
  [ Dispatch (addPairedRemote id type) ].

Definition onRemoteDisconnected (id : string) : list effect :=
  [ Dispatch (removePairedRemote id) ].

Definition onDisconnect (c : closure) (e : error) (sample : Z)
    : list effect * disconnectOutcome :=
  if truthy (pairingCode c) && isUnrecoverableRequestError deps e then
    (teardown ++ [ Dispatch (setPermanentPairingCode (Some "")) ], Throw e)
  else if retry c || initiallyConnected c then
    let jitter := getJitterDelay deps 3 sample in
    (teardown ++ [ GetJitterDelay 3; LogReconnect jitter; SetTimeout jitter ],
     RetryAfter jitter)
  else (teardown, Throw e).

Definition onRegistrationChange (jwt tenant : option string) : list effect :=
  [ Dispatch (setJwt jwt); Dispatch (setTenant tenant) ].

Definition onRemoteJoinCodeChange (remoteJoinCode : string) : list effect :=
  [ Dispatch (setRemoteJoinCode remoteJoinCode) ].

Definition createConnection (state : appState)
    (permanentPairingCode : option string) (a : attempt)
    : list effect * promise connectionResult :=
  let backend :=
    if backendEnabled state then Some (spotServicesConfig state) else None in
  let logged := LogInfo "Spot TV attempting connection" in
  if nonNull backend && negb (truthy permanentPairingCode) then
    ([ logged ], Rejected (ErrString validationMessage))
  else
    ([ logged;
       TransportConnect {| backend := backend;
                           joinAsSpot := true;
                           joinCodeRefreshRate := joinCodeRefreshRateOf state;
                           joinCode := permanentPairingCode;
                           serverConfig := remoteControlServerConfig state |} ],
     match connectAnswer a with
     | Fulfilled rp =>
         Fulfilled {| permanentPairingCode := permanentPairingCode;
                      remoteJoinCode := joinCodeAnswer a;
                      resultRoomProfile := rp;
                      tenant := if nonNull backend then backendTenant a else None;
                      jwt := if nonNull backend then backendJwt a else None |}
     | Rejected e => Rejected e
     | Pending => Pending
     end).

(** Modelled from the spec: [createAsyncActionWithStates] (imported from
    common/async-actions) is not among the sources.  In the spec the
    connect step's success feeds the success path and its failure feeds the
    classification, so the wrapper is taken to settle exactly as the
    request it wraps. *)
Definition createAsyncActionWithStates {A : Type}
    (request : list effect * promise A) : list effect * promise A :=
  request.

(** One pass through [doConnect]: the request, then [onSuccessfulConnect],
    then [onDisconnect] as the [catch] of both. *)
Definition attemptOnce (c : closure) (a : attempt)
    : closure * list effect * attemptOutcome :=
  let caught (c1 : closure) (t : list effect) (e : error) :=
    let '(t', d) := onDisconnect c1 e (jitterSample a) in
    match d with
    | Throw e' => (c1, t ++ t', Done (Rejected e'))
    | RetryAfter jitter => (c1, t ++ t', Again jitter)
    end in
  let '(t, p) :=
    createAsyncActionWithStates
      (createConnection (stateAtConnect a) (pairingCode c) a) in
  match p with
  | Pending => (c, t, Done Pending)
  | Rejected e => caught c t e
  | Fulfilled result =>
      let '(c1, t1, thrown) := onSuccessfulConnect c result (stateAtSuccess a) in
      match thrown with
      | None => (c1, t ++ t1, Done (Fulfilled tt))
      | Some e => caught c1 (t ++ t1) e
      end
  end.

(** [doConnect()], observed for as many attempts as the environment
    answers: [a] is the attempt made now, [rest] the attempts made when a
    retry timer fires.  When [rest] runs out the promise is still waiting
    on its timer. *)
Fixpoint doConnect (c : closure) (a : attempt) (rest : list attempt)
    : closure * list effect * promise unit :=
  let '(c1, t, o) := attemptOnce c a in
  match o with
  | Done p => (c1, t, p)
  | Again _ =>
      match rest with
      | [] => (c1, t, Pending)
      | a' :: rest' =>
          let '(c2, t', p) := doConnect c1 a' rest' in
          (c2, t ++ t', p)
      end
  end.

Definition registerListeners : list effect :=
  [ AddListener UNRECOVERABLE_DISCONNECT onDisconnectH;
    AddListener REMOTE_JOIN_CODE_CHANGE onRemoteJoinCodeChangeH;
    AddListener REGISTRATION_UPDATED onRegistrationChangeH;
    AddListener CLIENT_JOINED onRemoteConnectedH;
    AddListener CLIENT_LEFT onRemoteDisconnectedH ].

(** The thunk returned by [createSpotTVRemoteControlConnection], called
    with what [remoteControlServer.hasConnection()] answers. *)
Definition createSpotTVRemoteControlConnection (c : closure)
    (hasConnection : bool) (a : attempt) (rest : list attempt)
    : closure * list effect * promise unit :=
  if hasConnection then (c, [], Rejected (ErrString alreadyConnectedMessage))
  else
    let '(c', t, p) := doConnect c a rest in
    (c', registerListeners ++ t, p).

(** [onDisconnect] called as the UNRECOVERABLE_DISCONNECT listener: a
    throw goes to the emitter, a retry continues with [doConnect]. *)
Definition onDisconnectListener (c : closure) (e : error) (sample : Z)
    (rest : list attempt) : closure * list effect * promise unit :=
  let '(t, d) := onDisconnect c e sample in
  match d with
  | Throw e' => (c, t, Rejected e')
  | RetryAfter _ =>
      match rest with
      | [] => (c, t, Pending)
      | a :: rest' =>
          let '(c', t', p) := doConnect c a rest' in
          (c', t ++ t', p)
      end
  end.

(** ** The lifetime of one closure: every way its code can be entered *)

Inductive invocation : Type :=
| Connect (hasConnection : bool) (a : attempt) (rest : list attempt)
| Disconnected (e : error) (sample : Z) (rest : list attempt)
| RemoteJoinCodeChange (remoteJoinCode : string)
| RegistrationChange (jwt tenant : option string)
| RemoteConnected (id type : string)
| RemoteDisconnected (id : string).

Definition invoke (c : closure) (i : invocation) : closure * list effect :=
  match i with
  | Connect hasConnection a rest =>
      fst (createSpotTVRemoteControlConnection c hasConnection a rest)
  | Disconnected e sample rest => fst (onDisconnectListener c e sample rest)
  | RemoteJoinCodeChange code => (c, onRemoteJoinCodeChange code)
  | RegistrationChange j t => (c, onRegistrationChange j t)
  | RemoteConnected i ty => (c, onRemoteConnected i ty)
  | RemoteDisconnected i => (c, onRemoteDisconnected i)
  end.

Fixpoint lifetime (c : closure) (calls : list invocation)
    : closure * list effect :=
  match calls with
  | [] => (c, [])
  | i :: calls' =>
      let '(c1, t) := invoke c i in
      let '(c2, t') := lifetime c1 calls' in
      (c2, t ++ t')
  end.

End Thunks.

(** ** Explicit disconnect *)

(** The thunk of [disconnectSpotTvRemoteControl], called with what
    [hasConnection()] answers and with how [remoteControlServer.disconnect()]
    settles. *)
Definition disconnectSpotTvRemoteControl (hasConnection : bool)
    (answer : promise unit) : list effect * promise unit :=
  if negb hasConnection then ([], Fulfilled tt)
  else ([ TransportDisconnect ], answer).

(** ** Long lived pairing code *)

Definition generateLongLivedPairingCode (answer : promise pairingCodeInfo)
    : list effect * promise unit :=
  match answer with
  | Fulfilled info =>
      ([ TransportGenerateLongLivedPairingCode;
         Dispatch (setLongLivedPairingCodeInfo info) ], Fulfilled tt)
  | Rejected e => ([ TransportGenerateLongLivedPairingCode ], Rejected e)
  | Pending => ([ TransportGenerateLongLivedPairingCode ], Pending)
  end.

Definition oneHour : Z := 1000 * 60 * 60.

(** The thunk of [generateLongLivedPairingCodeIfExpired]; [now] is
    [Date.now()], [answer] is how the transport's request settles if it is
    made. *)
Definition generateLongLivedPairingCodeIfExpired (state : appState) (now : Z)
    (answer : promise pairingCodeInfo) : list effect * promise unit :=
  let info := longLivedPairingCodeInfo state in
  let expiresIn := option_map (fun i => expires i - now) info in
  let stale :=
    match expiresIn with
    | None => true
    | Some remaining => remaining <? oneHour
    end in
  if stale then
    let '(t, p) := generateLongLivedPairingCode answer in
    (LogInfo "Long lived pairing code does not exist or expired already" :: t, p)
  else ([], Fulfilled tt).

(** Modelled from the spec: the reducer behind [setLongLivedPairingCodeInfo]
    is not among the sources.  The spec has a refresh replace the stored
    value, so the action overwrites the slot and no other action of this
    module touches it. *)
Definition reduce (state : appState) (a : action) : appState :=
  match a with
  | setLongLivedPairingCodeInfo info =>
      {| backendEnabled := backendEnabled state;
         joinCodeRefreshRateOf := joinCodeRefreshRateOf state;
         remoteControlServerConfig := remoteControlServerConfig state;
         spotServicesConfig := spotServicesConfig state;
         longLivedPairingCodeInfo := Some info |}
  | _ => state
  end.

(** The store after the dispatches of a trace, in order. *)
Fixpoint storeAfter (state : appState) (t : list effect) : appState :=
  match t with
  | [] => state
  | Dispatch a :: t' => storeAfter (reduce state a) t'
  | _ :: t' => storeAfter state t'
  end.

(** Two calls of [generateLongLivedPairingCodeIfExpired] that overlap: the
    second is made before the request of the first has settled, so it reads
    the store as the first call's synchronous part left it. *)
Definition twoOverlappingRefreshes (state : appState) (now1 now2 : Z)
    : list effect :=
  let t1 := fst (generateLongLivedPairingCodeIfExpired state now1 Pending) in
  let t2 :=
    fst (generateLongLivedPairingCodeIfExpired (storeAfter state t1) now2 Pending) in
  t1 ++ t2.

(** ** The [setup] reducer *)

Module SetupReducer.

Inductive jsValue : Type :=
| JUndefined
| JBool (b : bool)
| JString (s : string)
| JNumber (z : Z).

(** [action.type]; the five constants of ./action-types are distinct, and
    [OTHER] is any other type. *)
Inductive actionType : Type :=
| SETUP_COMPLETED
| SET_AVATAR_URL
| SET_DISPLAY_NAME
| SET_IS_SPOT
| SET_SHOW_MEETING_TOOLBAR
| OTHER (t : string).

Record action : Type := {
  type : actionType;
  payload : gmap string jsValue
}.

(** Reading a property of an object: [undefined] when it is absent. *)
Definition prop (o : gmap string jsValue) (k : string) : jsValue :=
  default JUndefined (o !! k).

Definition DEFAULT_STATE : gmap string jsValue :=
  <["avatarUrl" := JString ""]>
    (<["completed" := JBool false]>
       (<["displayName" := JString ""]>
          (<["isSpot" := JBool false]>
             (<["showMeetingToolbar" := JBool false]> ∅)))).

(** [setup(state = DEFAULT_STATE, action)]: [None] is a call with
    [undefined] for the state. *)
Definition setup (state : option (gmap string jsValue)) (a : action)
    : gmap string jsValue :=
  let state := default DEFAULT_STATE state in
  match type a with
  | SETUP_COMPLETED => <["completed" := JBool true]> state
  | SET_AVATAR_URL => <["avatarUrl" := prop (payload a) "avatarUrl"]> state
  | SET_DISPLAY_NAME =>
      <["displayName" := prop (payload a) "displayName"]> state
  | SET_IS_SPOT => <["isSpot" := prop (payload a) "isSpot"]> state
  | SET_SHOW_MEETING_TOOLBAR =>
      <["showMeetingToolbar" := prop (payload a) "visible"]> state
  | OTHER _ => state
  end.

(** The field a handled action writes. *)
Definition target (t : actionType) : option string :=
  match t with
  | SETUP_COMPLETED => Some "completed"
  | SET_AVATAR_URL => Some "avatarUrl"
  | SET_DISPLAY_NAME => Some "displayName"
  | SET_IS_SPOT => Some "isSpot"
  | SET_SHOW_MEETING_TOOLBAR => Some "showMeetingToolbar"
  | OTHER _ => None
  end.

(** The store feeding a sequence of actions through the reducer. *)
Definition run (state : gmap string jsValue) (actions : list action)
    : gmap string jsValue :=
  fold_left (fun s a => setup (Some s) a) actions state.

Definition completed (state : gmap string jsValue) : bool :=
  match state !! "completed" with
  | Some (JBool true) => true
  | _ => false
  end.

End SetupReducer.

(** ** Concrete collaborators, to run the thunks on *)

(** A transport that classifies one rejection as unrecoverable. *)
Definition sampleClassifier (e : error) : bool :=
  match e with
  | ErrString s => String.eqb s "unrecoverable-error"
  | _ => false
  end.

(** A jitter between 500ms and [2 ^ retry] seconds. *)
Definition sampleJitter (retry sample : Z) : Z :=
  500 + sample mod (2 ^ retry * 1000 - 500).

Definition sampleState (backend : bool) : appState :=
  {| backendEnabled := backend;
     joinCodeRefreshRateOf := 3600000;
     remoteControlServerConfig := "xmpp";
     spotServicesConfig := "services";
     longLivedPairingCodeInfo := None |}.

Definition sampleAttempt (backend : bool)
    (answer : promise (option roomProfile)) (sample : Z) : attempt :=
  {| stateAtConnect := sampleState backend;
     connectAnswer := answer;
     joinCodeAnswer := "123456";
     backendTenant := Some "tenant";
     backendJwt := Some "jwt";
     stateAtSuccess := sampleState backend;
     jitterSample := sample |}.

Definition sampleRoom : option roomProfile :=
  Some {| id := "room-1"; name := "Lobby" |}.

Definition sampleDeps : imports :=
  {| isUnrecoverableRequestError := sampleClassifier;
     getJitterDelay := sampleJitter |}.

(** ** Predicates used in the statements *)

(** What the code can do to its closure: nothing, or raise
    [initiallyConnected]. *)
Definition evolves (c c' : closure) : Prop :=
  c' = c \/ c' = setInitiallyConnected c true.

(** Every timer of the trace goes with one call [getJitterDelay(3)]. *)
Definition paired (t : list effect) : Prop :=
  jitterArgs t = repeat 3 (length (timeouts t)).

(** The stored long lived pairing code is missing, or has less than one hour
    left at time [now]. *)
Definition stale (state : appState) (now : Z) : bool :=
  match longLivedPairingCodeInfo state with
  | None => true
  | Some info => expires info - now <? 3600000
  end.

(** ** The remaining thunks of the module *)

(** The three plain actions [pairWithBackend] dispatches by their type. *)
Inductive pairingStatus : Type :=
| SPOT_TV_PAIR_TO_BACKEND_PENDING
| SPOT_TV_PAIR_TO_BACKEND_FAIL
| SPOT_TV_PAIR_TO_BACKEND_SUCCESS.

(** Effects of the thunks below: those of the connection thunk, the plain
    actions above, and the two further transport and window calls. *)
Inductive thunkEffect : Type :=
| Core (e : effect)
| DispatchStatus (s : pairingStatus)
| DisconnectRemoteControl (remoteId : string)
| WindowReload.


Definition coreEffects (t : list thunkEffect) : list effect :=
  flat_map (fun e => match e with Core e' => [e'] | _ => [] end) t.

Definition isTransportDisconnect (e : effect) : bool :=
  match e with TransportDisconnect => true | _ => false end.

(** The thunk of [pairWithBackend(pairingCode)].  [hasConnection], [a] and
    [rest] feed the connection thunk; [generated] is how the transport's
    long lived pairing code request settles; [hasConnectionLater] is what
    [hasConnection()] answers inside the [catch], where the disconnect thunk
    is dispatched and its promise dropped. *)
Definition pairWithBackend (deps : imports) (pairingCode : option string)
    (hasConnection : bool) (a : attempt) (rest : list attempt)
    (generated : promise pairingCodeInfo) (hasConnectionLater : bool)
    (disconnected : promise unit) : list thunkEffect * promise unit :=
  let connected :=
    createSpotTVRemoteControlConnection deps (newClosure pairingCode false)
      hasConnection a rest in
  let started :=
    DispatchStatus SPOT_TV_PAIR_TO_BACKEND_PENDING
      :: map Core (traceOf connected) in
  match outcomeOf connected with
  | Pending => (started, Pending)
  | Rejected e =>
      (started ++ [ DispatchStatus SPOT_TV_PAIR_TO_BACKEND_FAIL ], Rejected e)
  | Fulfilled _ =>
      let '(t, p) := generateLongLivedPairingCode generated in
      match p with
      | Pending => (started ++ map Core t, Pending)
      | Fulfilled _ =>
          (started ++ map Core t
             ++ [ DispatchStatus SPOT_TV_PAIR_TO_BACKEND_SUCCESS ],
           Fulfilled tt)
      | Rejected e =>
          (started ++ map Core t
             ++ [ Core (LogError "Failed to generate long lived pairing code") ]
             ++ map Core
                  (fst (disconnectSpotTvRemoteControl hasConnectionLater
                          disconnected))
             ++ [ DispatchStatus SPOT_TV_PAIR_TO_BACKEND_FAIL ],
           Rejected e)
      end
  end.

(** One temporary remote of [getTemporaryRemoteIds(getState())], with how
    the transport's [disconnectRemoteControl] settles for it and when. *)
Record remoteRequest : Type := {
  remoteId : string;
  settles : promise unit;
  settledAt : nat
}.

(** The earliest rejection among the requests, the first in the list when
    two are equally early. *)
Fixpoint firstRejection (rs : list remoteRequest) : option (nat * error) :=
  match rs with
  | [] => None
  | r :: rs' =>
      match settles r, firstRejection rs' with
      | Rejected e, Some (t', e') =>
          if Nat.leb (settledAt r) t' then Some (settledAt r, e)
          else Some (t', e')
      | Rejected e, None => Some (settledAt r, e)
      | _, later => later
      end
  end.

Definition isFulfilled {A : Type} (p : promise A) : bool :=
  match p with Fulfilled _ => true | _ => false end.

(** [Promise.all] over the requests: rejected as soon as one is, fulfilled
    with one result per request once all are. *)
Definition promiseAll (rs : list remoteRequest) : promise (list unit) :=
  match firstRejection rs with
  | Some (_, e) => Rejected e
  | None =>
      if forallb (fun r => isFulfilled (settles r)) rs
      then Fulfilled (map (fun _ => tt) rs)
      else Pending
  end.

(** The thunk of [disconnectAllTemporaryRemotes]. *)
Definition disconnectAllTemporaryRemotes (remotes : list remoteRequest)
    : list thunkEffect * promise (list unit) :=
  (map (fun r => DisconnectRemoteControl (remoteId r)) remotes,
   promiseAll remotes).

(** The thunk of [updateSpotTVSource]; [disconnected] is how the transport's
    [disconnect] settles. *)
Definition updateSpotTVSource (disconnected : promise unit)
    : list thunkEffect * promise unit :=
  match disconnected with
  | Fulfilled _ => ([ Core TransportDisconnect; WindowReload ], Fulfilled tt)
  | Rejected e => ([ Core TransportDisconnect ], Rejected e)
  | Pending => ([ Core TransportDisconnect ], Pending)
  end.

(** ** Reading traces of the connection thunk *)

(** The join codes dispatched with [setRemoteJoinCode], in order, and the
    one the store is left with. *)
Definition joinCodes (t : list effect) : list string :=
  flat_map
    (fun e => match e with Dispatch (setRemoteJoinCode c) => [c] | _ => [] end)
    t.

Definition lastJoinCode (t : list effect) : option string :=
  fold_left (fun _ c => Some c) (joinCodes t) None.

(** The options of every call of the transport's [connect] in the trace. *)
Definition connectCalls (t : list effect) : list connectOptions :=
  flat_map (fun e => match e with TransportConnect o => [o] | _ => [] end) t.

(** The dispatches that tell the application who the device is. *)
Definition isIdentity (e : effect) : bool :=
  match e with
  | Dispatch (setSpotInstanceInfo _ _ _) => true
  | Dispatch (setDisplayName _) => true
  | _ => false
  end.

(** A call of the connection thunk that passes the [hasConnection()] test. *)
Definition startsConnect (i : invocation) : bool :=
  match i with
  | Connect false _ _ => true
  | _ => false
  end.

(** The effect, if it is a call of the transport's [connect], passes the
    pairing code [pc] as join code, joins as Spot, and has a backend only
    together with a pairing code. *)
Definition carriesRequest (pc : option string) (e : effect) : Prop :=
  match e with
  | TransportConnect o =>
      joinCode o = pc /\ joinAsSpot o = true /\
      (nonNull (backend o) = true -> truthy pc = true)
  | _ => True
  end.

Definition isRejected {A : Type} (p : promise A) : bool :=
  match p with Rejected _ => true | _ => false end.

(** Three temporary remotes: two requests are rejected, the third one of the
    list first. *)
Definition sampleRemotes : list remoteRequest :=
  [ {| remoteId := "r1"; settles := Rejected (ErrString "late");
       settledAt := 9 |};
    {| remoteId := "r2"; settles := Pending; settledAt := 0 |};
    {| remoteId := "r3"; settles := Rejected (ErrString "early");
       settledAt := 4 |} ].

(** ** Reading sequences of setup actions *)

Module SetupTrace.
Import SetupReducer.

(** The action is of the type SETUP_COMPLETED. *)
Definition completes (a : action) : bool :=
  match type a with
  | SETUP_COMPLETED => true
  | _ => false
  end.

(** The value a handled action writes into its field. *)
Definition written (a : action) : jsValue :=
  match type a with
  | SETUP_COMPLETED => JBool true
  | SET_AVATAR_URL => prop (payload a) "avatarUrl"
  | SET_DISPLAY_NAME => prop (payload a) "displayName"
  | SET_IS_SPOT => prop (payload a) "isSpot"
  | SET_SHOW_MEETING_TOOLBAR => prop (payload a) "visible"
  | OTHER _ => JUndefined
  end.

(** The last value the actions write into field [k], if any writes it. *)
Definition lastWrite (k : string) (actions : list action) : option jsValue :=
  fold_left
    (fun w a => if decide (target (type a) = Some k) then Some (written a) else w)
    actions None.

End SetupTrace.

(** The messages logged with [logger.log] in a trace; [createConnection]
    logs one at the start of every connect attempt. *)
Definition infoLogs (t : list effect) : list string :=
  flat_map (fun e => match e with LogInfo m => [m] | _ => [] end) t.

(** * Properties *)

(** ** The connection thunk *)

Section ThunkFacts.

Context (deps : imports).

Lemma onDisconnect_unrecoverable (c : closure) (e : error) (sample : Z) :
  truthy (pairingCode c) && isUnrecoverableRequestError deps e = true ->
  onDisconnect deps c e sample =
  (teardown ++ [ Dispatch (setPermanentPairingCode (Some "")) ], Throw e).
Proof. intros H. unfold onDisconnect. rewrite H. reflexivity. Qed.

Lemma onDisconnect_gated (c : closure) (e : error) (sample : Z) :
  truthy (pairingCode c) && isUnrecoverableRequestError deps e = false ->
  onDisconnect deps c e sample =
  if gate c
  then (teardown ++ [ GetJitterDelay 3;
                      LogReconnect (getJitterDelay deps 3 sample);
                      SetTimeout (getJitterDelay deps 3 sample) ],
        RetryAfter (getJitterDelay deps 3 sample))
  else (teardown, Throw e).
Proof. intros H. unfold onDisconnect, gate. rewrite H. reflexivity. Qed.

(** How one pass through [doConnect] goes when the request is rejected. *)
Lemma attemptOnce_rejected (c : closure) (a : attempt) (e : error) :
  snd (createConnection (stateAtConnect a) (pairingCode c) a) = Rejected e ->
  attemptOnce deps c a =
  (c,
   fst (createConnection (stateAtConnect a) (pairingCode c) a)
     ++ fst (onDisconnect deps c e (jitterSample a)),
   match snd (onDisconnect deps c e (jitterSample a)) with
   | Throw e' => Done (Rejected e')
   | RetryAfter jitter => Again jitter
   end).
Proof.
  intros H. unfold attemptOnce, createAsyncActionWithStates.
  destruct (createConnection _ _ _) as [t p]. simpl in H. subst p. simpl.
  destruct (onDisconnect deps c e (jitterSample a)) as [t' [e'|j]]; reflexivity.
Qed.

Lemma doConnect_unfold (c : closure) (a : attempt) (rest : list attempt) :
  doConnect deps c a rest =
  match outcomeOf (attemptOnce deps c a) with
  | Done p =>
      (closureOf (attemptOnce deps c a), traceOf (attemptOnce deps c a), p)
  | Again _ =>
      match rest with
      | [] =>
          (closureOf (attemptOnce deps c a), traceOf (attemptOnce deps c a),
           Pending)
      | a' :: rest' =>
          let next := doConnect deps (closureOf (attemptOnce deps c a)) a' rest' in
          (closureOf next, traceOf (attemptOnce deps c a) ++ traceOf next,
           outcomeOf next)
      end
  end.
Proof.
  unfold closureOf, traceOf, outcomeOf.
  destruct rest as [|a' rest']; simpl;
    destruct (attemptOnce deps c a) as [[c1 t] [p|j]]; simpl; try reflexivity.
  destruct (doConnect deps c1 a' rest') as [[c2 t'] p]; reflexivity.
Qed.

(** *** The closure: only [initiallyConnected] moves, and only upwards *)

Lemma evolves_refl (c : closure) : evolves c c.
Proof. left; reflexivity. Qed.

Lemma evolves_trans (c1 c2 c3 : closure) :
  evolves c1 c2 -> evolves c2 c3 -> evolves c1 c3.
Proof.
  unfold evolves, setInitiallyConnected.
  intros [->| ->] [->| ->]; simpl; auto.
Qed.

Lemma evolves_flag (c c' : closure) :
  evolves c c' -> initiallyConnected c = true -> initiallyConnected c' = true.
Proof. intros [->| ->] H; [exact H | reflexivity]. Qed.

Lemma evolves_request (c c' : closure) :
  evolves c c' -> pairingCode c' = pairingCode c /\ retry c' = retry c.
Proof. intros [->| ->]; split; reflexivity. Qed.

Lemma attemptOnce_evolves (c : closure) (a : attempt) :
  evolves c (closureOf (attemptOnce deps c a)).
Proof.
  unfold attemptOnce, createAsyncActionWithStates, closureOf, evolves.
  destruct (createConnection _ _ _) as [t [result|e|]]; simpl.
  - unfold onSuccessfulConnect.
    destruct (backendEnabled _); [destruct (resultRoomProfile _)|]; simpl; auto.
    destruct (onDisconnect _ _ _ _) as [t' [e'|j]]; simpl; auto.
  - destruct (onDisconnect _ _ _ _) as [t' [e'|j]]; simpl; auto.
  - auto.
Qed.

Lemma doConnect_evolves (rest : list attempt) (c : closure) (a : attempt) :
  evolves c (closureOf (doConnect deps c a rest)).
Proof.
  revert c a. induction rest as [|a' rest IH]; intros c a;
    rewrite doConnect_unfold;
    pose proof (attemptOnce_evolves c a) as Hstep;
    destruct (outcomeOf (attemptOnce deps c a)); try exact Hstep.
  simpl. eapply evolves_trans; [exact Hstep | apply IH].
Qed.

Lemma invoke_evolves (c : closure) (i : invocation) :
  evolves c (fst (invoke deps c i)).
Proof.
  destruct i as [[|] a rest|e sample rest| | | |]; simpl;
    try apply evolves_refl.
  - unfold createSpotTVRemoteControlConnection.
    pose proof (doConnect_evolves rest c a) as H. unfold closureOf in H.
    destruct (doConnect deps c a rest) as [[c' t] p]. exact H.
  - unfold onDisconnectListener.
    destruct (onDisconnect deps c e sample) as [t [e'|j]]; simpl;
      [apply evolves_refl|].
    destruct rest as [|a rest]; simpl; [apply evolves_refl|].
    pose proof (doConnect_evolves rest c a) as H. unfold closureOf in H.
    destruct (doConnect deps c a rest) as [[c' t'] p]. exact H.
Qed.

Lemma lifetime_evolves (calls : list invocation) (c : closure) :
  evolves c (fst (lifetime deps c calls)).
Proof.
  revert c. induction calls as [|i calls IH]; intros c; simpl;
    [apply evolves_refl|].
  pose proof (invoke_evolves c i) as H1.
  destruct (invoke deps c i) as [c1 t]. simpl in H1.
  pose proof (IH c1) as H2.
  destruct (lifetime deps c1 calls) as [c2 t']. simpl in *.
  eapply evolves_trans; eassumption.
Qed.

Lemma lifetime_app (calls more : list invocation) (c : closure) :
  lifetime deps c (calls ++ more) =
  (fst (lifetime deps (fst (lifetime deps c calls)) more),
   snd (lifetime deps c calls)
     ++ snd (lifetime deps (fst (lifetime deps c calls)) more)).
Proof.
  revert c. induction calls as [|i calls IH]; intros c; simpl.
  - destruct (lifetime deps c more); reflexivity.
  - destruct (invoke deps c i) as [c1 t]. rewrite IH.
    destruct (lifetime deps c1 calls) as [c2 t']. simpl.
    rewrite app_assoc. reflexivity.
Qed.

(** *** C4 *)

Lemma attemptOnce_fulfilled (c : closure) (a : attempt) (r : connectionResult) :
  snd (createConnection (stateAtConnect a) (pairingCode c) a) = Fulfilled r ->
  closureOf (attemptOnce deps c a) = setInitiallyConnected c true.
Proof.
  intros H. unfold attemptOnce, createAsyncActionWithStates, closureOf.
  destruct (createConnection _ _ _) as [t p]. simpl in H. subst p.
  unfold onSuccessfulConnect.
  destruct (backendEnabled _); [destruct (resultRoomProfile _)|]; simpl; auto.
  destruct (onDisconnect _ _ _ _) as [t' [e'|j]]; reflexivity.
Qed.

Lemma attemptOnce_resolves (c : closure) (a : attempt) :
  outcomeOf (attemptOnce deps c a) = Done (Fulfilled tt) ->
  initiallyConnected (closureOf (attemptOnce deps c a)) = true.
Proof.
  unfold attemptOnce, createAsyncActionWithStates, closureOf, outcomeOf.
  destruct (createConnection _ _ _) as [t [result|e|]]; simpl.
  - unfold onSuccessfulConnect.
    destruct (backendEnabled _); [destruct (resultRoomProfile _)|]; simpl; auto.
    destruct (onDisconnect _ _ _ _) as [t' [e'|j]]; simpl; auto.
  - destruct (onDisconnect _ _ _ _) as [t' [e'|j]]; simpl; discriminate.
  - discriminate.
Qed.

Lemma doConnect_resolves (rest : list attempt) (c : closure) (a : attempt) :
  outcomeOf (doConnect deps c a rest) = Fulfilled tt ->
  initiallyConnected (closureOf (doConnect deps c a rest)) = true.
Proof.
  revert c a. induction rest as [|a' rest IH]; intros c a;
    rewrite doConnect_unfold;
    pose proof (attemptOnce_resolves c a) as Hstep;
    destruct (outcomeOf (attemptOnce deps c a)) as [p|j]; simpl.
  - intros ->. unfold closureOf at 1. simpl. auto.
  - discriminate.
  - intros ->. unfold closureOf at 1. simpl. auto.
  - unfold outcomeOf at 1, closureOf at 1. simpl. apply IH.
Qed.

(** C4: within one closure of [createSpotTVRemoteControlConnection] the flag
    [initiallyConnected] starts false; a connect whose request is fulfilled,
    and any [doConnect] whose promise is fulfilled, leaves it true; and once
    true it is true after every further call into the closure (connects,
    disconnect events with their retries, and the other listeners). *)
Theorem initiallyConnected_monotonic :
  (forall (pc : option string) (r : bool),
      initiallyConnected (newClosure pc r) = false) /\
  (forall (c : closure) (a : attempt) (rest : list attempt)
          (result : connectionResult),
      snd (createConnection (stateAtConnect a) (pairingCode c) a)
        = Fulfilled result ->
      initiallyConnected (closureOf (doConnect deps c a rest)) = true) /\
  (forall (c : closure) (a : attempt) (rest : list attempt),
      outcomeOf (doConnect deps c a rest) = Fulfilled tt ->
      initiallyConnected (closureOf (doConnect deps c a rest)) = true) /\
  (forall (c : closure) (calls more : list invocation),
      initiallyConnected (fst (lifetime deps c calls)) = true ->
      initiallyConnected (fst (lifetime deps c (calls ++ more))) = true).
Proof.
  split; [reflexivity|]. split; [|split].
  - intros c a rest result H.
    rewrite doConnect_unfold.
    pose proof (attemptOnce_fulfilled c a result H) as Hc.
    destruct (outcomeOf (attemptOnce deps c a)) as [p|j];
      [unfold closureOf at 1; simpl; rewrite Hc; reflexivity|].
    destruct rest as [|a' rest];
      [unfold closureOf at 1; simpl; rewrite Hc; reflexivity|].
    unfold closureOf at 1. simpl.
    eapply evolves_flag; [apply doConnect_evolves|].
    rewrite Hc. reflexivity.
  - intros c a rest. apply doConnect_resolves.
  - intros c calls more H. rewrite lifetime_app. simpl.
    eapply evolves_flag; [apply lifetime_evolves | exact H].
Qed.

(** *** Timers and jitter calls in a trace *)

Lemma timeouts_app (t t' : list effect) :
  timeouts (t ++ t') = timeouts t ++ timeouts t'.
Proof. apply flat_map_app. Qed.

Lemma jitterArgs_app (t t' : list effect) :
  jitterArgs (t ++ t') = jitterArgs t ++ jitterArgs t'.
Proof. apply flat_map_app. Qed.

Lemma createConnection_quiet (st : appState) (pc : option string) (a : attempt) :
  timeouts (fst (createConnection st pc a)) = [] /\
  jitterArgs (fst (createConnection st pc a)) = [].
Proof.
  unfold createConnection.
  destruct (nonNull _ && negb (truthy pc)); split; reflexivity.
Qed.

Lemma onSuccessfulConnect_quiet (c : closure) (r : connectionResult)
    (st : appState) :
  timeouts (snd (fst (onSuccessfulConnect c r st))) = [] /\
  jitterArgs (snd (fst (onSuccessfulConnect c r st))) = [].
Proof.
  unfold onSuccessfulConnect.
  destruct (backendEnabled st); [destruct (resultRoomProfile r)|];
    split; reflexivity.
Qed.

(** [onDisconnect] sets a timer exactly when it asks for a retry, and then
    it has called [getJitterDelay] once, with 3. *)
Lemma onDisconnect_timer (c : closure) (e : error) (sample : Z) :
  match snd (onDisconnect deps c e sample) with
  | RetryAfter jitter =>
      jitter = getJitterDelay deps 3 sample /\
      timeouts (fst (onDisconnect deps c e sample)) = [jitter] /\
      jitterArgs (fst (onDisconnect deps c e sample)) = [3]
  | Throw e' =>
      e' = e /\
      timeouts (fst (onDisconnect deps c e sample)) = [] /\
      jitterArgs (fst (onDisconnect deps c e sample)) = []
  end.
Proof.
  unfold onDisconnect.
  destruct (truthy (pairingCode c) && isUnrecoverableRequestError deps e);
    [|destruct (retry c || initiallyConnected c)]; simpl; auto.
Qed.

Lemma attemptOnce_timer (c : closure) (a : attempt) :
  match outcomeOf (attemptOnce deps c a) with
  | Again jitter =>
      jitter = getJitterDelay deps 3 (jitterSample a) /\
      timeouts (traceOf (attemptOnce deps c a)) = [jitter] /\
      jitterArgs (traceOf (attemptOnce deps c a)) = [3]
  | Done _ =>
      timeouts (traceOf (attemptOnce deps c a)) = [] /\
      jitterArgs (traceOf (attemptOnce deps c a)) = []
  end.
Proof.
  unfold attemptOnce, createAsyncActionWithStates, outcomeOf, traceOf.
  pose proof (createConnection_quiet (stateAtConnect a) (pairingCode c) a)
    as [Ht Hj].
  destruct (createConnection _ _ _) as [t [result|e|]]; simpl in *.
  - pose proof (onSuccessfulConnect_quiet c result (stateAtSuccess a))
      as [Ht1 Hj1].
    destruct (onSuccessfulConnect _ _ _) as [[c1 t1] [e|]]; simpl in *.
    + pose proof (onDisconnect_timer c1 e (jitterSample a)) as Hd.
      destruct (onDisconnect _ _ _ _) as [t' [e'|j]]; simpl in *;
        rewrite !timeouts_app, !jitterArgs_app, Ht, Hj, Ht1, Hj1; simpl;
        tauto.
    + rewrite timeouts_app, jitterArgs_app, Ht, Hj, Ht1, Hj1. auto.
  - pose proof (onDisconnect_timer c e (jitterSample a)) as Hd.
    destruct (onDisconnect _ _ _ _) as [t' [e'|j]]; simpl in *;
      rewrite !timeouts_app, !jitterArgs_app, Ht, Hj; simpl; tauto.
  - auto.
Qed.

(** The delays of a [doConnect] run: one per retried attempt, each computed
    from that attempt's draw with the argument 3. *)
Lemma doConnect_timeouts (rest : list attempt) (c : closure) (a : attempt) :
  exists k : nat,
    timeouts (traceOf (doConnect deps c a rest)) =
    map (fun a' => getJitterDelay deps 3 (jitterSample a'))
        (firstn k (a :: rest)).
Proof.
  revert c a. induction rest as [|a' rest IH]; intros c a;
    rewrite doConnect_unfold;
    pose proof (attemptOnce_timer c a) as Hstep;
    destruct (outcomeOf (attemptOnce deps c a)) as [p|j].
  - exists 0%nat. unfold traceOf at 1. simpl. tauto.
  - exists 1%nat. unfold traceOf at 1. simpl.
    destruct Hstep as (-> & -> & _). reflexivity.
  - exists 0%nat. unfold traceOf at 1. simpl. tauto.
  - destruct (IH (closureOf (attemptOnce deps c a)) a') as [k Hk].
    exists (S k). unfold traceOf at 1. simpl.
    rewrite timeouts_app, Hk.
    destruct Hstep as (-> & -> & _). reflexivity.
Qed.

(** In a trace [getJitterDelay] was called once per timer, always with 3. *)
Lemma doConnect_paired (rest : list attempt) (c : closure) (a : attempt) :
  paired (traceOf (doConnect deps c a rest)).
Proof.
  unfold paired.
  revert c a. induction rest as [|a' rest IH]; intros c a;
    rewrite doConnect_unfold;
    pose proof (attemptOnce_timer c a) as Hstep;
    destruct (outcomeOf (attemptOnce deps c a)) as [p|j];
    unfold traceOf in *; simpl.
  - destruct Hstep as [-> ->]. reflexivity.
  - destruct Hstep as (_ & -> & ->). reflexivity.
  - destruct Hstep as [-> ->]. reflexivity.
  - rewrite timeouts_app, jitterArgs_app, IH.
    destruct Hstep as (_ & -> & ->). reflexivity.
Qed.

Lemma paired_app (t t' : list effect) :
  paired t -> paired t' -> paired (t ++ t').
Proof.
  unfold paired. intros H H'.
  rewrite timeouts_app, jitterArgs_app, H, H', length_app, repeat_app.
  reflexivity.
Qed.

Lemma invoke_paired (c : closure) (i : invocation) :
  paired (snd (invoke deps c i)).
Proof.
  destruct i as [[|] a rest|e sample rest| | | |]; simpl; try reflexivity.
  - unfold createSpotTVRemoteControlConnection.
    pose proof (doConnect_paired rest c a) as H. unfold traceOf in H.
    destruct (doConnect deps c a rest) as [[c' t] p]. simpl in *.
    apply (paired_app registerListeners t); [reflexivity | exact H].
  - unfold onDisconnectListener.
    pose proof (onDisconnect_timer c e sample) as Hd.
    destruct (onDisconnect deps c e sample) as [t [e'|j]]; simpl in *.
    + unfold paired. destruct Hd as (_ & -> & ->). reflexivity.
    + assert (Ht : paired t)
        by (unfold paired; destruct Hd as (_ & -> & ->); reflexivity).
      destruct rest as [|a rest]; simpl; [exact Ht|].
      pose proof (doConnect_paired rest c a) as H. unfold traceOf in H.
      destruct (doConnect deps c a rest) as [[c' t'] p]. simpl in *.
      apply paired_app; assumption.
Qed.

Lemma lifetime_paired (calls : list invocation) (c : closure) :
  paired (snd (lifetime deps c calls)).
Proof.
  revert c. induction calls as [|i calls IH]; intros c; simpl;
    [reflexivity|].
  pose proof (invoke_paired c i) as H1.
  destruct (invoke deps c i) as [c1 t]. simpl in H1.
  pose proof (IH c1) as H2.
  destruct (lifetime deps c1 calls) as [c2 t']. simpl in *.
  apply paired_app; assumption.
Qed.

(** [onDisconnect] asks for a retry only through its second branch: it has
    then called [getJitterDelay(3)], logged the delay and handed it to
    [setTimeout], and the delay of the retry is that value. *)
Lemma onDisconnect_retry (c : closure) (e : error) (sample j : Z) :
  snd (onDisconnect deps c e sample) = RetryAfter j ->
  j = getJitterDelay deps 3 sample /\
  fst (onDisconnect deps c e sample)
  = teardown ++ [ GetJitterDelay 3; LogReconnect j; SetTimeout j ].
Proof.
  unfold onDisconnect.
  destruct (truthy (pairingCode c) && isUnrecoverableRequestError deps e);
    [|destruct (retry c || initiallyConnected c)]; cbn [fst snd];
    try discriminate.
  intros [= <-]. split; reflexivity.
Qed.

Lemma infoLogs_app (t t' : list effect) :
  infoLogs (t ++ t') = infoLogs t ++ infoLogs t'.
Proof. apply flat_map_app. Qed.

Lemma onDisconnect_infoLogs (c : closure) (e : error) (sample : Z) :
  infoLogs (fst (onDisconnect deps c e sample)) = [].
Proof.
  unfold onDisconnect.
  destruct (truthy (pairingCode c) && isUnrecoverableRequestError deps e);
    [|destruct (retry c || initiallyConnected c)]; reflexivity.
Qed.

(** Every pass through [doConnect] logs one connect attempt. *)
Lemma attemptOnce_logs_once (c : closure) (a : attempt) :
  length (infoLogs (traceOf (attemptOnce deps c a))) = 1%nat.
Proof.
  unfold attemptOnce, createAsyncActionWithStates, traceOf.
  assert (H0 : length (infoLogs (fst (createConnection (stateAtConnect a)
                                        (pairingCode c) a))) = 1%nat).
  { unfold createConnection.
    destruct (nonNull _ && negb (truthy (pairingCode c))); reflexivity. }
  destruct (createConnection _ _ _) as [t [result|e|]]; cbn [fst snd] in *.
  - assert (H1 : infoLogs (snd (fst (onSuccessfulConnect c result
                                       (stateAtSuccess a)))) = []).
    { unfold onSuccessfulConnect.
      destruct (backendEnabled _); [destruct (resultRoomProfile _)|];
        reflexivity. }
    destruct (onSuccessfulConnect _ _ _) as [[c1 t1] [e|]]; cbn [fst snd] in *.
    + pose proof (onDisconnect_infoLogs c1 e (jitterSample a)) as H2.
      destruct (onDisconnect _ _ _ _) as [t' [e'|j]]; cbn [fst snd] in *;
        rewrite !infoLogs_app, H1, H2, !app_nil_r; exact H0.
    + rewrite infoLogs_app, H1, app_nil_r. exact H0.
  - pose proof (onDisconnect_infoLogs c e (jitterSample a)) as H2.
    destruct (onDisconnect _ _ _ _) as [t' [e'|j]]; cbn [fst snd] in *;
      rewrite infoLogs_app, H2, app_nil_r; exact H0.
  - exact H0.
Qed.

(** A pass through [doConnect] that ends in a retry ends with the call
    [getJitterDelay(3)], the log line and the timer of that delay, and has
    called [getJitterDelay] and [setTimeout] nowhere before. *)
Lemma attemptOnce_retry_trace (c : closure) (a : attempt) (j : Z) :
  outcomeOf (attemptOnce deps c a) = Again j ->
  j = getJitterDelay deps 3 (jitterSample a) /\
  exists t,
    traceOf (attemptOnce deps c a)
    = t ++ [ GetJitterDelay 3; LogReconnect j; SetTimeout j ] /\
    jitterArgs t = [] /\ timeouts t = [].
Proof.
  unfold attemptOnce, createAsyncActionWithStates, outcomeOf, traceOf.
  pose proof (createConnection_quiet (stateAtConnect a) (pairingCode c) a)
    as [Ht Hj].
  destruct (createConnection _ _ _) as [t [result|e|]]; cbn [fst snd] in *.
  - pose proof (onSuccessfulConnect_quiet c result (stateAtSuccess a))
      as [Ht1 Hj1].
    destruct (onSuccessfulConnect _ _ _) as [[c1 t1] [e|]]; cbn [fst snd] in *;
      [|discriminate].
    pose proof (onDisconnect_retry c1 e (jitterSample a)) as Hd.
    destruct (onDisconnect _ _ _ _) as [t' [e'|j']]; cbn [fst snd] in *;
      [discriminate|].
    intros [= <-]. destruct (Hd j' eq_refl) as [Hjit ->].
    split; [exact Hjit|].
    exists ((t ++ t1) ++ teardown). split; [apply app_assoc|].
    rewrite !jitterArgs_app, !timeouts_app, Ht, Hj, Ht1, Hj1.
    split; reflexivity.
  - pose proof (onDisconnect_retry c e (jitterSample a)) as Hd.
    destruct (onDisconnect _ _ _ _) as [t' [e'|j']]; cbn [fst snd] in *;
      [discriminate|].
    intros [= <-]. destruct (Hd j' eq_refl) as [Hjit ->].
    split; [exact Hjit|].
    exists (t ++ teardown). split; [apply app_assoc|].
    rewrite jitterArgs_app, timeouts_app, Ht, Hj. split; reflexivity.
  - discriminate.
Qed.

(** A [doConnect] run with [k] timers: the timers carry [getJitterDelay 3]
    of the first [k] attempts' draws, [getJitterDelay] was called [k] times
    with 3, and the run has made [k + 1] connect attempts, or [k] of them
    when it is waiting on its last timer. *)
Lemma doConnect_retries (rest : list attempt) (c : closure) (a : attempt) :
  exists k : nat,
    length (timeouts (traceOf (doConnect deps c a rest))) = k /\
    timeouts (traceOf (doConnect deps c a rest)) =
    map (fun a' => getJitterDelay deps 3 (jitterSample a'))
        (firstn k (a :: rest)) /\
    jitterArgs (traceOf (doConnect deps c a rest)) = repeat 3 k /\
    (length (infoLogs (traceOf (doConnect deps c a rest))) = S k \/
     (length (infoLogs (traceOf (doConnect deps c a rest))) = k /\
      outcomeOf (doConnect deps c a rest) = Pending)).
Proof.
  revert c a. induction rest as [|a' rest IH]; intros c a;
    rewrite doConnect_unfold;
    pose proof (attemptOnce_timer c a) as Hstep;
    pose proof (attemptOnce_logs_once c a) as Hlog;
    destruct (outcomeOf (attemptOnce deps c a)) as [p|j];
    unfold traceOf, outcomeOf in *; cbn [fst snd] in *.
  - exists 0%nat. destruct Hstep as [-> ->]. rewrite Hlog.
    repeat split; auto.
  - exists 1%nat. destruct Hstep as (-> & -> & ->). rewrite Hlog.
    repeat split; auto.
  - exists 0%nat. destruct Hstep as [-> ->]. rewrite Hlog.
    repeat split; auto.
  - destruct (IH (closureOf (attemptOnce deps c a)) a')
      as (k & Hlen & Hk & Hj & Hn).
    exists (S k).
    rewrite timeouts_app, jitterArgs_app, infoLogs_app, !length_app.
    destruct Hstep as (-> & -> & ->). rewrite Hk, Hj, Hlog.
    cbn [length app firstn map repeat Nat.add].
    rewrite <- Hk, Hlen. repeat split; try reflexivity.
    destruct Hn as [-> | [-> ->]]; auto.
Qed.

(** C8: every retry is preceded by a call [getJitterDelay(3)] whose value is
    the delay of the retry timer.  [onDisconnect] returns a retry only after
    calling [getJitterDelay(3)], logging the value and passing it to
    [setTimeout], and it does return one for every error that reaches its
    retry gate with the gate open; a pass through [doConnect] that ends in a
    retry ends with those three effects.  In a [doConnect] run all but the
    first connect attempt follow such a timer: with [k] timers the run has
    made [k + 1] attempts ([k] while the last timer is pending), the [k]
    calls of [getJitterDelay] all had the argument 3, and the delay before
    the i-th re-attempt is [getJitterDelay 3] on the i-th attempt's draw,
    whatever i is.  Over the whole lifetime of a closure every call of
    [getJitterDelay] has the argument 3 and there is one such call per
    timer. *)
Theorem backoff_argument_constant :
  (forall (c : closure) (e : error) (sample j : Z),
      snd (onDisconnect deps c e sample) = RetryAfter j ->
      j = getJitterDelay deps 3 sample /\
      fst (onDisconnect deps c e sample)
      = teardown ++ [ GetJitterDelay 3; LogReconnect j; SetTimeout j ]) /\
  (forall (c : closure) (e : error) (sample : Z),
      truthy (pairingCode c) && isUnrecoverableRequestError deps e = false ->
      gate c = true ->
      snd (onDisconnect deps c e sample)
      = RetryAfter (getJitterDelay deps 3 sample)) /\
  (forall (c : closure) (a : attempt) (j : Z),
      outcomeOf (attemptOnce deps c a) = Again j ->
      j = getJitterDelay deps 3 (jitterSample a) /\
      exists t,
        traceOf (attemptOnce deps c a)
        = t ++ [ GetJitterDelay 3; LogReconnect j; SetTimeout j ] /\
        jitterArgs t = [] /\ timeouts t = []) /\
  (forall (c : closure) (a : attempt) (rest : list attempt),
      exists k : nat,
        length (timeouts (traceOf (doConnect deps c a rest))) = k /\
        timeouts (traceOf (doConnect deps c a rest)) =
        map (fun a' => getJitterDelay deps 3 (jitterSample a'))
            (firstn k (a :: rest)) /\
        jitterArgs (traceOf (doConnect deps c a rest)) = repeat 3 k /\
        (length (infoLogs (traceOf (doConnect deps c a rest))) = S k \/
         (length (infoLogs (traceOf (doConnect deps c a rest))) = k /\
          outcomeOf (doConnect deps c a rest) = Pending))) /\
  (forall (c : closure) (calls : list invocation),
      Forall (fun n => n = 3) (jitterArgs (snd (lifetime deps c calls))) /\
      length (jitterArgs (snd (lifetime deps c calls)))
        = length (timeouts (snd (lifetime deps c calls)))) /\
  (forall (c : closure) (a : attempt) (rest : list attempt),
      exists k : nat,
        timeouts (traceOf (doConnect deps c a rest)) =
        map (fun a' => getJitterDelay deps 3 (jitterSample a'))
            (firstn k (a :: rest))).
Proof.
  split; [|split; [|split; [|split; [|split]]]].
  - apply onDisconnect_retry.
  - intros c e sample Hg Hopen. rewrite (onDisconnect_gated c e sample Hg), Hopen.
    reflexivity.
  - apply attemptOnce_retry_trace.
  - intros c a rest. apply doConnect_retries.
  - intros c calls. rewrite (lifetime_paired calls c). split.
    + induction (length _) as [|n IH]; simpl; constructor; auto.
    + apply repeat_length.
  - intros c a rest. apply doConnect_timeouts.
Qed.

(** *** C1 *)

Lemma transient_gated (c : closure) (e : error) :
  isUnrecoverableRequestError deps e = false ->
  truthy (pairingCode c) && isUnrecoverableRequestError deps e = false.
Proof. intros ->. apply andb_false_r. Qed.

(** C1: for an error the transport does not classify as unrecoverable,
    [onDisconnect] schedules a retry exactly when [retry] or
    [initiallyConnected] holds.  With the gate open a connect attempt failing
    with that error sets one timer, of [getJitterDelay(3)] milliseconds, and
    the run goes on with [doConnect] on the same closure (same pairing code,
    same retry flag); with the gate closed the promise is rejected with the
    error, no timer is set and the closure is as before. *)
Theorem transient_failure_retry_gate (c : closure) (e : error) :
  isUnrecoverableRequestError deps e = false ->
  (forall sample : Z,
      onDisconnect deps c e sample =
      if gate c
      then (teardown ++ [ GetJitterDelay 3;
                          LogReconnect (getJitterDelay deps 3 sample);
                          SetTimeout (getJitterDelay deps 3 sample) ],
            RetryAfter (getJitterDelay deps 3 sample))
      else (teardown, Throw e)) /\
  (forall a : attempt,
      snd (createConnection (stateAtConnect a) (pairingCode c) a) = Rejected e ->
      if gate c
      then
        timeouts (traceOf (attemptOnce deps c a))
          = [ getJitterDelay deps 3 (jitterSample a) ] /\
        forall (a' : attempt) (rest : list attempt),
          doConnect deps c a (a' :: rest) =
          (closureOf (doConnect deps c a' rest),
           traceOf (attemptOnce deps c a) ++ traceOf (doConnect deps c a' rest),
           outcomeOf (doConnect deps c a' rest))
      else
        forall rest : list attempt,
          outcomeOf (doConnect deps c a rest) = Rejected e /\
          timeouts (traceOf (doConnect deps c a rest)) = [] /\
          closureOf (doConnect deps c a rest) = c).
Proof.
  intros He. pose proof (transient_gated c e He) as Hg. split.
  - intros sample. apply onDisconnect_gated, Hg.
  - intros a Ha.
    pose proof (attemptOnce_rejected c a e Ha) as Hstep.
    pose proof (createConnection_quiet (stateAtConnect a) (pairingCode c) a)
      as [Ht _].
    rewrite (onDisconnect_gated c e (jitterSample a) Hg) in Hstep.
    destruct (gate c); simpl in Hstep.
    + split.
      * rewrite Hstep. unfold traceOf. simpl.
        rewrite timeouts_app, Ht. reflexivity.
      * intros a' rest. rewrite doConnect_unfold at 1.
        rewrite Hstep. unfold outcomeOf at 1. simpl.
        unfold closureOf at 2. simpl. reflexivity.
    + intros rest. rewrite doConnect_unfold, Hstep.
      unfold outcomeOf, traceOf, closureOf. simpl.
      rewrite timeouts_app, Ht. auto.
Qed.

(** *** C2 *)

(** C2, amended: when a pairing code was supplied, an error the transport
    classifies as unrecoverable is never retried, whatever [retry] and
    [initiallyConnected] are: [onDisconnect] dispatches
    [setPermanentPairingCode('')] and throws the error, so a connect attempt
    failing with it rejects the caller's promise and sets no timer.  When no
    pairing code was supplied the classification is not consulted and the
    error goes through the retry gate. *)
Theorem unrecoverable_error_with_pairing_code (c : closure) (e : error) :
  (truthy (pairingCode c) = true ->
   isUnrecoverableRequestError deps e = true ->
   (forall sample : Z,
       onDisconnect deps c e sample =
       (teardown ++ [ Dispatch (setPermanentPairingCode (Some "")) ], Throw e)) /\
   (forall (a : attempt) (rest : list attempt),
       snd (createConnection (stateAtConnect a) (pairingCode c) a)
         = Rejected e ->
       outcomeOf (doConnect deps c a rest) = Rejected e /\
       timeouts (traceOf (doConnect deps c a rest)) = [] /\
       In (Dispatch (setPermanentPairingCode (Some "")))
          (traceOf (doConnect deps c a rest))) /\
   (forall (sample : Z) (rest : list attempt),
       onDisconnectListener deps c e sample rest =
       (c, teardown ++ [ Dispatch (setPermanentPairingCode (Some "")) ],
        Rejected e))) /\
  (truthy (pairingCode c) = false ->
   forall sample : Z,
     onDisconnect deps c e sample =
     if gate c
     then (teardown ++ [ GetJitterDelay 3;
                         LogReconnect (getJitterDelay deps 3 sample);
                         SetTimeout (getJitterDelay deps 3 sample) ],
           RetryAfter (getJitterDelay deps 3 sample))
     else (teardown, Throw e)).
Proof.
  split.
  - intros Hpc He.
    assert (Hu : truthy (pairingCode c) && isUnrecoverableRequestError deps e
                 = true) by (rewrite Hpc, He; reflexivity).
    split; [|split].
    + intros sample. apply onDisconnect_unrecoverable, Hu.
    + intros a rest Ha.
      pose proof (attemptOnce_rejected c a e Ha) as Hstep.
      pose proof (createConnection_quiet (stateAtConnect a) (pairingCode c) a)
        as [Ht _].
      rewrite (onDisconnect_unrecoverable c e (jitterSample a) Hu) in Hstep.
      simpl in Hstep. rewrite doConnect_unfold, Hstep.
      unfold outcomeOf, traceOf. simpl. split; [reflexivity|]. split.
      * rewrite timeouts_app, Ht. reflexivity.
      * apply in_or_app. right. simpl. auto 10.
    + intros sample rest. unfold onDisconnectListener.
      rewrite (onDisconnect_unrecoverable c e sample Hu). reflexivity.
  - intros Hpc sample. apply onDisconnect_gated. rewrite Hpc. reflexivity.
Qed.

(** *** C3 *)

Lemma countOf_app (p : effect -> bool) (t t' : list effect) :
  countOf p (t ++ t') = (countOf p t + countOf p t')%nat.
Proof. unfold countOf. rewrite List.filter_app. apply length_app. Qed.

Lemma onDisconnect_no_connect (c : closure) (e : error) (sample : Z) :
  countOf isTransportConnect (fst (onDisconnect deps c e sample)) = 0%nat.
Proof.
  unfold onDisconnect.
  destruct (truthy (pairingCode c) && isUnrecoverableRequestError deps e);
    [|destruct (retry c || initiallyConnected c)]; reflexivity.
Qed.

Lemma createConnection_validation (st : appState) (pc : option string)
    (a : attempt) :
  backendEnabled st = true ->
  truthy pc = false ->
  createConnection st pc a =
  ([ LogInfo "Spot TV attempting connection" ],
   Rejected (ErrString validationMessage)).
Proof. intros Hb Hpc. unfold createConnection. rewrite Hb, Hpc. reflexivity. Qed.

Lemma attemptOnce_validation (c : closure) (a : attempt) :
  backendEnabled (stateAtConnect a) = true ->
  truthy (pairingCode c) = false ->
  attemptOnce deps c a =
  (c,
   [ LogInfo "Spot TV attempting connection" ]
     ++ (if gate c
         then teardown ++ [ GetJitterDelay 3;
                LogReconnect (getJitterDelay deps 3 (jitterSample a));
                SetTimeout (getJitterDelay deps 3 (jitterSample a)) ]
         else teardown),
   if gate c
   then Again (getJitterDelay deps 3 (jitterSample a))
   else Done (Rejected (ErrString validationMessage))).
Proof.
  intros Hb Hpc.
  pose proof (createConnection_validation _ _ a Hb Hpc) as Hcc.
  rewrite (attemptOnce_rejected c a (ErrString validationMessage))
    by (rewrite Hcc; reflexivity).
  rewrite Hcc, onDisconnect_gated by (rewrite Hpc; reflexivity).
  destruct (gate c); reflexivity.
Qed.

Lemma doConnect_validation_no_connect (rest : list attempt) (c : closure)
    (a : attempt) :
  truthy (pairingCode c) = false ->
  Forall (fun a' => backendEnabled (stateAtConnect a') = true) (a :: rest) ->
  countOf isTransportConnect (traceOf (doConnect deps c a rest)) = 0%nat.
Proof.
  intros Hpc. revert a.
  induction rest as [|a' rest IH]; intros a Hall;
    inversion Hall as [|? ? Ha Hrest]; subst;
    rewrite doConnect_unfold, (attemptOnce_validation c a Ha Hpc);
    unfold outcomeOf, traceOf, closureOf; simpl;
    destruct (gate c); simpl; try reflexivity.
  fold (closureOf (doConnect deps c a' rest)).
  change (snd (fst (doConnect deps c a' rest)))
    with (traceOf (doConnect deps c a' rest)).
  apply (IH a' Hrest).
Qed.

(** C3, amended: a connect attempt made while the backend is enabled and
    without a pairing code is rejected by [createConnection] with the
    validation message and without a call of the transport's [connect].
    When neither [retry] nor [initiallyConnected] holds the thunk's promise
    is rejected with that message; otherwise the rejection goes through the
    retry gate and a timer is set instead.  However long the run, as long as
    the backend stays enabled no attempt calls the transport's [connect]. *)
Theorem validation_before_transport (c : closure) (a : attempt) :
  backendEnabled (stateAtConnect a) = true ->
  truthy (pairingCode c) = false ->
  createConnection (stateAtConnect a) (pairingCode c) a =
    ([ LogInfo "Spot TV attempting connection" ],
     Rejected (ErrString validationMessage)) /\
  (gate c = false ->
   forall rest : list attempt,
     createSpotTVRemoteControlConnection deps c false a rest =
     (c,
      registerListeners ++ [ LogInfo "Spot TV attempting connection" ]
        ++ teardown,
      Rejected (ErrString validationMessage))) /\
  (gate c = true ->
   outcomeOf (attemptOnce deps c a)
     = Again (getJitterDelay deps 3 (jitterSample a))) /\
  (forall rest : list attempt,
      Forall (fun a' => backendEnabled (stateAtConnect a') = true) rest ->
      countOf isTransportConnect
        (traceOf (createSpotTVRemoteControlConnection deps c false a rest))
      = 0%nat).
Proof.
  intros Hb Hpc. split; [|split; [|split]].
  - apply createConnection_validation; assumption.
  - intros Hg rest. unfold createSpotTVRemoteControlConnection.
    rewrite doConnect_unfold, (attemptOnce_validation c a Hb Hpc), Hg.
    reflexivity.
  - intros Hg. rewrite (attemptOnce_validation c a Hb Hpc), Hg. reflexivity.
  - intros rest Hrest. unfold createSpotTVRemoteControlConnection.
    assert (Hall : Forall (fun a' => backendEnabled (stateAtConnect a') = true)
                          (a :: rest)) by (constructor; assumption).
    pose proof (doConnect_validation_no_connect rest c a Hpc Hall) as H.
    unfold traceOf in *.
    destruct (doConnect deps c a rest) as [[c' t] p]. cbn [fst snd] in *.
    rewrite countOf_app, H. reflexivity.
Qed.

(** *** C5 *)

(** C5: when [hasConnection()] answers true the thunk returns a promise
    already rejected with the already-connected message; it performs no
    effect at all (no connect attempt, no listener registered, nothing
    dispatched) and leaves the closure as it was.  (Without a connection
    the same thunk starts by registering its five listeners.) *)
Theorem connect_while_connected_rejected (c : closure) (a : attempt)
    (rest : list attempt) :
  createSpotTVRemoteControlConnection deps c true a rest =
    (c, [], Rejected (ErrString alreadyConnectedMessage)) /\
  countOf isTransportConnect
    (traceOf (createSpotTVRemoteControlConnection deps c true a rest)) = 0%nat /\
  countOf isAddListener
    (traceOf (createSpotTVRemoteControlConnection deps c true a rest)) = 0%nat /\
  countOf isAddListener
    (firstn 5 (traceOf (createSpotTVRemoteControlConnection deps c false a rest)))
    = 5%nat.
Proof.
  repeat split.
  unfold createSpotTVRemoteControlConnection, traceOf.
  destruct (doConnect deps c a rest) as [[c' t] p]. reflexivity.
Qed.

End ThunkFacts.

Lemma backoff_argument_constant_witness :
  (1734 = getJitterDelay sampleDeps 3 1234 /\
   fst (onDisconnect sampleDeps (newClosure (Some "ABC123") true)
          (ErrString "connection-lost") 1234)
   = teardown ++ [ GetJitterDelay 3; LogReconnect 1734; SetTimeout 1734 ]) /\
  snd (onDisconnect sampleDeps
         (setInitiallyConnected (newClosure None false) true)
         (ErrString "unrecoverable-error") 20000)
  = RetryAfter (getJitterDelay sampleDeps 3 20000) /\
  (5500 = getJitterDelay sampleDeps 3 20000 /\
   exists t,
     traceOf
       (attemptOnce sampleDeps (newClosure (Some "ABC123") true)
          (sampleAttempt true (Rejected (ErrString "connection-lost")) 20000))
     = t ++ [ GetJitterDelay 3; LogReconnect 5500; SetTimeout 5500 ] /\
     jitterArgs t = [] /\ timeouts t = []).
Proof.
  split; [|split].
  - exact (proj1 (backoff_argument_constant sampleDeps)
             (newClosure (Some "ABC123") true) (ErrString "connection-lost")
             1234 1734 eq_refl).
  - exact (proj1 (proj2 (backoff_argument_constant sampleDeps))
             (setInitiallyConnected (newClosure None false) true)
             (ErrString "unrecoverable-error") 20000 eq_refl eq_refl).
  - exact (proj1 (proj2 (proj2 (backoff_argument_constant sampleDeps)))
             (newClosure (Some "ABC123") true)
             (sampleAttempt true (Rejected (ErrString "connection-lost")) 20000)
             5500 eq_refl).
Defined.

(** A run of three attempts, the first two rejected: the two re-attempts
    follow timers of [getJitterDelay 3] on the first and the second draw. *)
Example backoff_three_attempts :
  timeouts
    (traceOf
       (doConnect sampleDeps (newClosure (Some "ABC123") true)
          (sampleAttempt true (Rejected (ErrString "connection-lost")) 1234)
          [ sampleAttempt true (Rejected (ErrString "connection-lost")) 20000;
            sampleAttempt true (Fulfilled sampleRoom) 7 ]))
  = [ sampleJitter 3 1234; sampleJitter 3 20000 ] /\
  jitterArgs
    (traceOf
       (doConnect sampleDeps (newClosure (Some "ABC123") true)
          (sampleAttempt true (Rejected (ErrString "connection-lost")) 1234)
          [ sampleAttempt true (Rejected (ErrString "connection-lost")) 20000;
            sampleAttempt true (Fulfilled sampleRoom) 7 ]))
  = [ 3; 3 ] /\
  length
    (infoLogs
       (traceOf
          (doConnect sampleDeps (newClosure (Some "ABC123") true)
             (sampleAttempt true (Rejected (ErrString "connection-lost")) 1234)
             [ sampleAttempt true (Rejected (ErrString "connection-lost")) 20000;
               sampleAttempt true (Fulfilled sampleRoom) 7 ])))
  = 3%nat.
Proof. repeat split. Qed.

Lemma transient_failure_retry_gate_witness :
  outcomeOf
    (doConnect sampleDeps (newClosure (Some "ABC123") false)
       (sampleAttempt true (Rejected (ErrString "connection-lost")) 1234) [])
  = Rejected (ErrString "connection-lost") /\
  timeouts
    (traceOf
       (attemptOnce sampleDeps (newClosure (Some "ABC123") true)
          (sampleAttempt true (Rejected (ErrString "connection-lost")) 1234)))
  = [ 1734 ].
Proof.
  split.
  - exact (proj1
             (proj2 (transient_failure_retry_gate sampleDeps
                       (newClosure (Some "ABC123") false)
                       (ErrString "connection-lost") eq_refl)
                (sampleAttempt true (Rejected (ErrString "connection-lost")) 1234)
                eq_refl [])).
  - exact (proj1
             (proj2 (transient_failure_retry_gate sampleDeps
                       (newClosure (Some "ABC123") true)
                       (ErrString "connection-lost") eq_refl)
                (sampleAttempt true (Rejected (ErrString "connection-lost")) 1234)
                eq_refl)).
Defined.

(** C2 as stated fails: without a pairing code, an error the transport
    classifies as unrecoverable is retried when [retry] is set, and the
    permanent pairing code is not cleared. *)
Lemma unrecoverable_error_retried_without_pairing_code :
  isUnrecoverableRequestError sampleDeps (ErrString "unrecoverable-error")
    = true /\
  onDisconnect sampleDeps (newClosure None true)
    (ErrString "unrecoverable-error") 1234
  = (teardown ++ [ GetJitterDelay 3; LogReconnect 1734; SetTimeout 1734 ],
     RetryAfter 1734) /\
  ~ In (Dispatch (setPermanentPairingCode (Some "")))
       (fst (onDisconnect sampleDeps (newClosure None true)
               (ErrString "unrecoverable-error") 1234)) /\
  outcomeOf
    (doConnect sampleDeps (newClosure None true)
       (sampleAttempt false (Rejected (ErrString "unrecoverable-error")) 1234)
       [])
  = Pending.
Proof.
  repeat split. intros H. simpl in H. intuition discriminate.
Qed.

Lemma unrecoverable_error_with_pairing_code_witness :
  outcomeOf
    (doConnect sampleDeps (newClosure (Some "ABC123") true)
       (sampleAttempt true (Rejected (ErrString "unrecoverable-error")) 1234)
       [ sampleAttempt true (Fulfilled sampleRoom) 0 ])
  = Rejected (ErrString "unrecoverable-error") /\
  snd (onDisconnect sampleDeps (newClosure None false)
         (ErrString "unrecoverable-error") 1234)
  = Throw (ErrString "unrecoverable-error").
Proof.
  split.
  - exact (proj1
             (proj1 (proj2 (proj1
                (unrecoverable_error_with_pairing_code sampleDeps
                   (newClosure (Some "ABC123") true)
                   (ErrString "unrecoverable-error")) eq_refl eq_refl))
                (sampleAttempt true
                   (Rejected (ErrString "unrecoverable-error")) 1234)
                [ sampleAttempt true (Fulfilled sampleRoom) 0 ] eq_refl)).
  - rewrite (proj2 (unrecoverable_error_with_pairing_code sampleDeps
                      (newClosure None false)
                      (ErrString "unrecoverable-error")) eq_refl 1234).
    reflexivity.
Defined.

(** C3 as stated fails: with the backend enabled, no pairing code and
    [retry] set, the connect is not failed with the validation error: each
    attempt is rejected and retried, and the caller's promise stays pending. *)
Lemma validation_error_retried_when_retry_set :
  outcomeOf
    (createSpotTVRemoteControlConnection sampleDeps (newClosure None true)
       false (sampleAttempt true Pending 1234)
       [ sampleAttempt true Pending 20000; sampleAttempt true Pending 7 ])
  = Pending /\
  timeouts
    (traceOf
       (createSpotTVRemoteControlConnection sampleDeps (newClosure None true)
          false (sampleAttempt true Pending 1234)
          [ sampleAttempt true Pending 20000; sampleAttempt true Pending 7 ]))
  = [ 1734; 5500; 507 ] /\
  outcomeOf
    (createSpotTVRemoteControlConnection sampleDeps (newClosure None true)
       false (sampleAttempt true Pending 1234)
       [ sampleAttempt true Pending 20000; sampleAttempt true Pending 7 ])
  <> Rejected (ErrString validationMessage).
Proof. repeat split. discriminate. Qed.

Lemma validation_before_transport_witness :
  createSpotTVRemoteControlConnection sampleDeps (newClosure None false)
    false (sampleAttempt true (Fulfilled sampleRoom) 1234) []
  = (newClosure None false,
     registerListeners ++ [ LogInfo "Spot TV attempting connection" ] ++ teardown,
     Rejected (ErrString validationMessage)) /\
  outcomeOf
    (attemptOnce sampleDeps (newClosure (Some "") true)
       (sampleAttempt true (Fulfilled sampleRoom) 1234))
  = Again 1734 /\
  countOf isTransportConnect
    (traceOf
       (createSpotTVRemoteControlConnection sampleDeps (newClosure None true)
          false (sampleAttempt true (Fulfilled sampleRoom) 1234)
          [ sampleAttempt true (Fulfilled sampleRoom) 99 ]))
  = 0%nat.
Proof.
  split; [|split].
  - exact (proj1 (proj2
             (validation_before_transport sampleDeps (newClosure None false)
                (sampleAttempt true (Fulfilled sampleRoom) 1234)
                eq_refl eq_refl)) eq_refl []).
  - exact (proj1 (proj2 (proj2
             (validation_before_transport sampleDeps (newClosure (Some "") true)
                (sampleAttempt true (Fulfilled sampleRoom) 1234)
                eq_refl eq_refl))) eq_refl).
  - apply (proj2 (proj2 (proj2
             (validation_before_transport sampleDeps (newClosure None true)
                (sampleAttempt true (Fulfilled sampleRoom) 1234)
                eq_refl eq_refl)))).
    repeat constructor.
Defined.

Lemma initiallyConnected_monotonic_witness :
  initiallyConnected
    (fst (lifetime sampleDeps (newClosure (Some "ABC123") false)
            ([ Connect false (sampleAttempt true (Fulfilled sampleRoom) 1) [] ]
               ++ [ Disconnected (ErrString "connection-lost") 1234
                      [ sampleAttempt true (Rejected (ErrString "down")) 2 ];
                    RemoteDisconnected "remote-1" ])))
  = true /\
  initiallyConnected
    (closureOf
       (doConnect sampleDeps (newClosure None false)
          (sampleAttempt false (Fulfilled None) 1)
          [ sampleAttempt false (Rejected (ErrString "down")) 2 ]))
  = true /\
  initiallyConnected
    (closureOf
       (doConnect sampleDeps (newClosure (Some "ABC123") true)
          (sampleAttempt true (Rejected (ErrString "down")) 1)
          [ sampleAttempt true (Fulfilled sampleRoom) 2 ]))
  = true.
Proof.
  split; [|split].
  - apply (proj2 (proj2 (proj2 (initiallyConnected_monotonic sampleDeps)))).
    reflexivity.
  - refine (proj1 (proj2 (initiallyConnected_monotonic sampleDeps))
              (newClosure None false)
              (sampleAttempt false (Fulfilled None) 1)
              [ sampleAttempt false (Rejected (ErrString "down")) 2 ] _ _).
    reflexivity.
  - apply (proj1 (proj2 (proj2 (initiallyConnected_monotonic sampleDeps)))).
    reflexivity.
Defined.

(** A connect that is fulfilled without a room profile while the backend is
    enabled throws inside [onSuccessfulConnect], after the flag was raised:
    the [catch] then finds the gate open even though [retry] is false. *)
Example fulfilled_then_thrown_is_retried :
  attemptOnce sampleDeps (newClosure (Some "ABC123") false)
    (sampleAttempt true (Fulfilled None) 1234)
  = (setInitiallyConnected (newClosure (Some "ABC123") false) true,
     [ LogInfo "Spot TV attempting connection";
       TransportConnect {| backend := Some "services"; joinAsSpot := true;
                           joinCodeRefreshRate := 3600000;
                           joinCode := Some "ABC123";
                           serverConfig := "xmpp" |};
       Dispatch (setRemoteJoinCode "123456");
       Dispatch (setJwt (Some "jwt"));
       Dispatch (setTenant (Some "tenant"));
       Dispatch (setPermanentPairingCode (Some "ABC123")) ]
       ++ teardown
       ++ [ GetJitterDelay 3; LogReconnect 1734; SetTimeout 1734 ],
     Again 1734).
Proof. reflexivity. Qed.

(** ** Explicit disconnect *)

(** C9 as stated fails: an explicit disconnect with a connection only calls
    the transport's [disconnect]; it dispatches neither
    [setRemoteJoinCode('')] nor [clearAllPairedRemotes()].  The code that
    does dispatch them, [onDisconnect], sets a retry timer when it runs for
    a closure that has connected. *)
Lemma explicit_disconnect_clears_nothing :
  disconnectSpotTvRemoteControl true (Fulfilled tt)
  = ([ TransportDisconnect ], Fulfilled tt) /\
  ~ In (Dispatch (setRemoteJoinCode ""))
       (fst (disconnectSpotTvRemoteControl true (Fulfilled tt))) /\
  ~ In (Dispatch clearAllPairedRemotes)
       (fst (disconnectSpotTvRemoteControl true (Fulfilled tt))) /\
  timeouts
    (fst (onDisconnect sampleDeps
            (setInitiallyConnected (newClosure (Some "ABC123") false) true)
            (ErrString "disconnected") 1234))
  = [ 1734 ].
Proof.
  repeat split; intros H; simpl in H; intuition discriminate.
Qed.

(** C9, amended: an explicit disconnect resolves at once, with no effect,
    when the transport reports no connection; otherwise it calls the
    transport's [disconnect] once and settles as that call settles.  In
    both cases it dispatches nothing, sets no timer and starts no connect.
    The join code and the paired remotes are cleared by [onDisconnect],
    which starts with that teardown on every failure it handles. *)
Theorem explicit_disconnect (hasConnection : bool) (answer : promise unit) :
  (hasConnection = false ->
   disconnectSpotTvRemoteControl hasConnection answer = ([], Fulfilled tt)) /\
  (hasConnection = true ->
   disconnectSpotTvRemoteControl hasConnection answer
   = ([ TransportDisconnect ], answer)) /\
  countOf isDispatch (fst (disconnectSpotTvRemoteControl hasConnection answer))
    = 0%nat /\
  timeouts (fst (disconnectSpotTvRemoteControl hasConnection answer)) = [] /\
  countOf isTransportConnect
    (fst (disconnectSpotTvRemoteControl hasConnection answer)) = 0%nat /\
  (forall (deps : imports) (c : closure) (e : error) (sample : Z),
      firstn 4 (fst (onDisconnect deps c e sample)) = teardown).
Proof.
  split; [|split; [|split; [|split; [|split]]]];
    try (destruct hasConnection; intros; try discriminate; reflexivity).
  intros deps c e sample. unfold onDisconnect.
  destruct (truthy (pairingCode c) && isUnrecoverableRequestError deps e);
    [|destruct (retry c || initiallyConnected c)]; reflexivity.
Qed.

Lemma explicit_disconnect_witness :
  disconnectSpotTvRemoteControl false Pending = ([], Fulfilled tt) /\
  disconnectSpotTvRemoteControl true (Rejected (ErrString "socket closed"))
  = ([ TransportDisconnect ], Rejected (ErrString "socket closed")).
Proof.
  split.
  - exact (proj1 (explicit_disconnect false Pending) eq_refl).
  - exact (proj1 (proj2 (explicit_disconnect true
                           (Rejected (ErrString "socket closed")))) eq_refl).
Defined.

(** ** Long lived pairing code *)

Lemma oneHour_ms : oneHour = 3600000.
Proof. reflexivity. Qed.

Lemma generateLongLivedPairingCodeIfExpired_cases (state : appState) (now : Z)
    (answer : promise pairingCodeInfo) :
  generateLongLivedPairingCodeIfExpired state now answer =
  if stale state now
  then (LogInfo "Long lived pairing code does not exist or expired already"
          :: fst (generateLongLivedPairingCode answer),
        snd (generateLongLivedPairingCode answer))
  else ([], Fulfilled tt).
Proof.
  unfold generateLongLivedPairingCodeIfExpired, stale.
  destruct (longLivedPairingCodeInfo state) as [info|]; simpl.
  - rewrite oneHour_ms. destruct (expires info - now <? 3600000);
      [destruct (generateLongLivedPairingCode answer)|]; reflexivity.
  - destruct (generateLongLivedPairingCode answer); reflexivity.
Qed.

(** C6: [generateLongLivedPairingCodeIfExpired] asks the transport for a new
    code exactly when none is stored or the stored one expires in less than
    one hour (3600000 ms): then one request is made, the promise settles as
    the request does, and a granted code is dispatched and becomes the
    stored value.  Otherwise the promise is already fulfilled, nothing is
    requested or dispatched, and the store is as before. *)
Theorem refresh_if_expiring_soon (state : appState) (now : Z) :
  ((longLivedPairingCodeInfo state = None \/
    exists info, longLivedPairingCodeInfo state = Some info /\
                 expires info - now < 3600000) ->
   (forall answer : promise pairingCodeInfo,
       countOf isGenerateRequest
         (fst (generateLongLivedPairingCodeIfExpired state now answer)) = 1%nat /\
       snd (generateLongLivedPairingCodeIfExpired state now answer)
       = match answer with
         | Fulfilled _ => Fulfilled tt
         | Rejected e => Rejected e
         | Pending => Pending
         end) /\
   (forall info' : pairingCodeInfo,
       In (Dispatch (setLongLivedPairingCodeInfo info'))
          (fst (generateLongLivedPairingCodeIfExpired state now
                  (Fulfilled info'))) /\
       longLivedPairingCodeInfo
         (storeAfter state
            (fst (generateLongLivedPairingCodeIfExpired state now
                    (Fulfilled info')))) = Some info')) /\
  ((exists info, longLivedPairingCodeInfo state = Some info /\
                 3600000 <= expires info - now) ->
   forall answer : promise pairingCodeInfo,
     generateLongLivedPairingCodeIfExpired state now answer
       = ([], Fulfilled tt) /\
     storeAfter state
       (fst (generateLongLivedPairingCodeIfExpired state now answer)) = state).
Proof.
  split.
  - intros Hstale.
    assert (Hs : stale state now = true).
    { unfold stale. destruct Hstale as [->|(info & -> & Hlt)];
        [reflexivity | apply Z.ltb_lt, Hlt]. }
    split.
    + intros answer. rewrite generateLongLivedPairingCodeIfExpired_cases, Hs.
      destruct answer; split; reflexivity.
    + intros info'. rewrite generateLongLivedPairingCodeIfExpired_cases, Hs.
      split; [simpl; auto | reflexivity].
  - intros (info & Hinfo & Hge) answer.
    assert (Hs : stale state now = false)
      by (unfold stale; rewrite Hinfo; apply Z.ltb_ge, Hge).
    rewrite generateLongLivedPairingCodeIfExpired_cases, Hs.
    split; reflexivity.
Qed.

Lemma refresh_if_expiring_soon_witness :
  longLivedPairingCodeInfo
    (storeAfter
       {| backendEnabled := true; joinCodeRefreshRateOf := 3600000;
          remoteControlServerConfig := "xmpp"; spotServicesConfig := "services";
          longLivedPairingCodeInfo :=
            Some {| code := "OLDCODE1"; expires := 5000000 |} |}
       (fst (generateLongLivedPairingCodeIfExpired
               {| backendEnabled := true; joinCodeRefreshRateOf := 3600000;
                  remoteControlServerConfig := "xmpp";
                  spotServicesConfig := "services";
                  longLivedPairingCodeInfo :=
                    Some {| code := "OLDCODE1"; expires := 5000000 |} |}
               1400001
               (Fulfilled {| code := "NEWCODE2"; expires := 90000000 |}))))
  = Some {| code := "NEWCODE2"; expires := 90000000 |} /\
  generateLongLivedPairingCodeIfExpired
    {| backendEnabled := true; joinCodeRefreshRateOf := 3600000;
       remoteControlServerConfig := "xmpp"; spotServicesConfig := "services";
       longLivedPairingCodeInfo :=
         Some {| code := "OLDCODE1"; expires := 5000000 |} |}
    1400000 (Fulfilled {| code := "NEWCODE2"; expires := 90000000 |})
  = ([], Fulfilled tt).
Proof.
  split.
  - refine (proj2 (proj2 (proj1 (refresh_if_expiring_soon _ 1400001) _) _)).
    right. eexists. split; [reflexivity | reflexivity].
  - refine (proj1 (proj2 (refresh_if_expiring_soon _ 1400000) _ _)).
    eexists. split; [reflexivity | discriminate].
Defined.

(** C7 as stated fails: two calls made before either request has settled,
    with no code stored, ask the transport twice. *)
Lemma overlapping_refreshes_request_twice :
  countOf isGenerateRequest (twoOverlappingRefreshes (sampleState true) 1000 1001)
  = 2%nat /\
  ~ (countOf isGenerateRequest
       (twoOverlappingRefreshes (sampleState true) 1000 1001) <= 1)%nat.
Proof. split; [reflexivity | vm_compute; lia]. Qed.

Lemma storeAfter_pending (state : appState) (now : Z) :
  storeAfter state
    (fst (generateLongLivedPairingCodeIfExpired state now Pending)) = state.
Proof.
  rewrite generateLongLivedPairingCodeIfExpired_cases.
  destruct (stale state now); reflexivity.
Qed.

(** C7, amended: every call decides by itself and nothing is shared between
    calls in flight: of two calls made before either request has settled,
    each one that finds the code missing or within an hour of expiry asks
    the transport, so two such calls make two requests. *)
Theorem overlapping_refreshes_not_shared (state : appState) (now1 now2 : Z) :
  countOf isGenerateRequest (twoOverlappingRefreshes state now1 now2)
  = ((if stale state now1 then 1 else 0)
     + (if stale state now2 then 1 else 0))%nat.
Proof.
  unfold twoOverlappingRefreshes. rewrite storeAfter_pending.
  unfold countOf. rewrite List.filter_app, length_app.
  rewrite !generateLongLivedPairingCodeIfExpired_cases.
  destruct (stale state now1), (stale state now2); reflexivity.
Qed.

(** ** The [setup] reducer *)

Module SetupFacts.
Import SetupReducer.

Lemma setup_defined (s : gmap string jsValue) (a : action) :
  setup (Some s) a =
  match target (type a) with
  | None => s
  | Some k =>
      <[k := match type a with
             | SETUP_COMPLETED => JBool true
             | SET_SHOW_MEETING_TOOLBAR => prop (payload a) "visible"
             | _ => prop (payload a) k
             end]> s
  end.
Proof. unfold setup; destruct (type a); reflexivity. Qed.

Lemma setup_other_fields (s : gmap string jsValue) (a : action) (k : string) :
  target (type a) ≠ Some k → setup (Some s) a !! k = s !! k.
Proof.
  intros Hk. rewrite setup_defined.
  destruct (target (type a)) as [k'|]; [|reflexivity].
  apply lookup_insert_ne. congruence.
Qed.

Lemma setup_keeps_completed (s : gmap string jsValue) (a : action) :
  completed s = true → completed (setup (Some s) a) = true.
Proof.
  unfold completed. intros Hs.
  destruct (decide (target (type a) = Some "completed")) as [Heq|Hne].
  - rewrite setup_defined, Heq.
    destruct (type a); try discriminate Heq. by rewrite lookup_insert_eq.
  - by rewrite setup_other_fields.
Qed.

Lemma run_keeps_completed (actions : list action) (s : gmap string jsValue) :
  completed s = true → completed (run s actions) = true.
Proof.
  revert s. induction actions as [|a actions IH]; intros s Hs; [exact Hs|].
  apply IH, setup_keeps_completed, Hs.
Qed.

(** C10: in the setup reducer SETUP_COMPLETED sets [completed] to true; once
    true it stays true through every sequence of actions; a handled action
    writes only its own field and leaves every other field as it was; an
    action of any other type returns the state it was given. *)
Theorem setup_completed_monotonic :
  (∀ (state : option (gmap string jsValue)) (a : action),
      type a = SETUP_COMPLETED → completed (setup state a) = true) ∧
  (∀ (s : gmap string jsValue) (actions : list action),
      completed s = true → completed (run s actions) = true) ∧
  (∀ (s : gmap string jsValue) (a : action) (k : string),
      target (type a) ≠ Some k → setup (Some s) a !! k = s !! k) ∧
  (∀ (s : gmap string jsValue) (a : action),
      target (type a) = None → setup (Some s) a = s).
Proof.
  split; [|split; [|split]].
  - intros state a Ha. unfold completed, setup. rewrite Ha.
    cbv beta iota zeta. by rewrite lookup_insert_eq.
  - intros s actions. apply run_keeps_completed.
  - apply setup_other_fields.
  - intros s a Ha. rewrite setup_defined, Ha. reflexivity.
Qed.

Lemma setup_completed_monotonic_witness :
  completed
    (run (setup None {| type := SETUP_COMPLETED; payload := ∅ |})
       [ {| type := SET_IS_SPOT; payload := <["isSpot" := JBool true]> ∅ |};
         {| type := OTHER "@@INIT"; payload := ∅ |};
         {| type := SET_AVATAR_URL; payload := ∅ |} ]) = true ∧
  setup (Some DEFAULT_STATE)
    {| type := SET_DISPLAY_NAME;
       payload := <["displayName" := JString "Lobby"]> ∅ |} !! "completed"
  = DEFAULT_STATE !! "completed" ∧
  setup (Some DEFAULT_STATE) {| type := OTHER "@@INIT"; payload := ∅ |}
  = DEFAULT_STATE.
Proof.
  split; [|split].
  - apply (proj1 (proj2 setup_completed_monotonic)).
    apply (proj1 setup_completed_monotonic). reflexivity.
  - apply (proj1 (proj2 (proj2 setup_completed_monotonic))). discriminate.
  - apply (proj2 (proj2 (proj2 setup_completed_monotonic))). reflexivity.
Defined.

End SetupFacts.

(** * Further properties *)

(** ** Runs of the connection thunk *)

Section RunFacts.

Context (deps : imports).

(** A property of effects that depends on the closure only through the
    pairing code holds along a whole [doConnect] run once it holds for every
    single attempt the environment may answer. *)
Lemma doConnect_Forall_on (A : attempt -> Prop)
    (Q : option string -> effect -> Prop) :
  (forall c a, A a ->
     Forall (Q (pairingCode c)) (traceOf (attemptOnce deps c a))) ->
  forall rest c a,
    Forall A (a :: rest) ->
    Forall (Q (pairingCode c)) (traceOf (doConnect deps c a rest)).
Proof.
  intros Hstep. induction rest as [|a' rest IH]; intros c a Hall;
    inversion Hall as [|? ? HA Hrest]; subst;
    rewrite doConnect_unfold; pose proof (Hstep c a HA) as Ha;
    destruct (outcomeOf (attemptOnce deps c a)) as [p|j];
    unfold traceOf in *; simpl; try exact Ha.
  apply Forall_app. split; [exact Ha|].
  pose proof (IH (closureOf (attemptOnce deps c a)) a' Hrest) as Hnext.
  destruct (evolves_request _ _ (attemptOnce_evolves deps c a)) as [Hpc _].
  rewrite Hpc in Hnext. exact Hnext.
Qed.

Lemma doConnect_Forall (Q : option string -> effect -> Prop) :
  (forall c a, Forall (Q (pairingCode c)) (traceOf (attemptOnce deps c a))) ->
  forall rest c a,
    Forall (Q (pairingCode c)) (traceOf (doConnect deps c a rest)).
Proof.
  intros Hstep rest c a.
  apply (doConnect_Forall_on (fun _ => True)); [auto|].
  clear. generalize (a :: rest). intros l.
  induction l; constructor; auto.
Qed.

Lemma countOf_zero (p : effect -> bool) (t : list effect) :
  Forall (fun e => p e = false) t -> countOf p t = 0%nat.
Proof.
  unfold countOf. induction 1 as [|e t He _ IH]; simpl; [reflexivity|].
  rewrite He. exact IH.
Qed.


(** *** What the transport's [connect] is called with *)

Lemma createConnection_carries (st : appState) (pc : option string)
    (a : attempt) :
  Forall (carriesRequest pc) (fst (createConnection st pc a)).
Proof.
  unfold createConnection.
  destruct (nonNull _ && negb (truthy pc)) eqn:Hv; simpl;
    repeat constructor; simpl.
  intros Hb. rewrite Hb in Hv. simpl in Hv.
  destruct (truthy pc); [reflexivity | discriminate].
Qed.

Lemma carries_other (pc : option string) (t : list effect) :
  countOf isTransportConnect t = 0%nat -> Forall (carriesRequest pc) t.
Proof.
  unfold countOf. induction t as [|e t IH]; simpl; intros H; constructor.
  - destruct e; simpl in *; try exact I. discriminate.
  - apply IH. destruct (isTransportConnect e); [discriminate | exact H].
Qed.

Lemma onSuccessfulConnect_no_connect (c : closure) (r : connectionResult)
    (st : appState) :
  countOf isTransportConnect (snd (fst (onSuccessfulConnect c r st))) = 0%nat.
Proof.
  unfold onSuccessfulConnect.
  destruct (backendEnabled st); [destruct (resultRoomProfile r)|]; reflexivity.
Qed.

Lemma attemptOnce_carries (c : closure) (a : attempt) :
  Forall (carriesRequest (pairingCode c)) (traceOf (attemptOnce deps c a)).
Proof.
  unfold attemptOnce, createAsyncActionWithStates, traceOf.
  pose proof (createConnection_carries (stateAtConnect a) (pairingCode c) a)
    as H0.
  destruct (createConnection _ _ _) as [t [result|e|]]; simpl in *.
  - pose proof (onSuccessfulConnect_no_connect c result (stateAtSuccess a))
      as H1.
    destruct (onSuccessfulConnect _ _ _) as [[c1 t1] [e|]]; simpl in *.
    + pose proof (onDisconnect_no_connect deps c1 e (jitterSample a)) as H2.
      destruct (onDisconnect _ _ _ _) as [t' [e'|j]]; simpl in *;
        repeat (apply Forall_app; split); auto using carries_other.
    + apply Forall_app; split; auto using carries_other.
  - pose proof (onDisconnect_no_connect deps c e (jitterSample a)) as H2.
    destruct (onDisconnect _ _ _ _) as [t' [e'|j]]; simpl in *;
      apply Forall_app; split; auto using carries_other.
  - exact H0.
Qed.

Lemma invoke_carries (c : closure) (i : invocation) :
  Forall (carriesRequest (pairingCode c)) (snd (invoke deps c i)).
Proof.
  destruct i as [[|] a rest|e sample rest| | | |]; simpl;
    try (repeat constructor; fail).
  - unfold createSpotTVRemoteControlConnection.
    pose proof (doConnect_Forall carriesRequest attemptOnce_carries rest c a)
      as H. unfold traceOf in H.
    destruct (doConnect deps c a rest) as [[c' t] p]. cbn [fst snd] in *.
    repeat (constructor; [exact I|]). exact H.
  - unfold onDisconnectListener.
    pose proof (onDisconnect_no_connect deps c e sample) as Hd.
    destruct (onDisconnect deps c e sample) as [t [e'|j]]; simpl in *;
      [apply carries_other, Hd|].
    destruct rest as [|a rest]; simpl; [apply carries_other, Hd|].
    pose proof (doConnect_Forall carriesRequest attemptOnce_carries rest c a)
      as H. unfold traceOf in H.
    destruct (doConnect deps c a rest) as [[c' t'] p]. simpl in *.
    apply Forall_app. split; [apply carries_other, Hd | exact H].
Qed.

(** X1: Over the whole lifetime of a closure every call of the transport's
    [connect] passes the closure's pairing code as join code and joins as
    Spot; it passes a backend only when that pairing code is non-empty. *)
Theorem connect_calls_carry_request (calls : list invocation) (c : closure) :
  Forall (carriesRequest (pairingCode c)) (snd (lifetime deps c calls)).
Proof.
  revert c. induction calls as [|i calls IH]; intros c; simpl;
    [constructor|].
  pose proof (invoke_carries c i) as H1.
  pose proof (invoke_evolves deps c i) as He.
  destruct (invoke deps c i) as [c1 t]. simpl in *.
  pose proof (IH c1) as H2.
  destruct (lifetime deps c1 calls) as [c2 t']. simpl in *.
  destruct (evolves_request _ _ He) as [Hpc _]. rewrite Hpc in H2.
  apply Forall_app. split; assumption.
Qed.

(** X2: The pairing code and the retry flag of a closure never change. *)
Theorem request_is_immutable (calls : list invocation) (c : closure) :
  pairingCode (fst (lifetime deps c calls)) = pairingCode c /\
  retry (fst (lifetime deps c calls)) = retry c.
Proof. apply evolves_request, lifetime_evolves. Qed.

(** *** Bounds *)

Lemma createConnection_one_connect (st : appState) (pc : option string)
    (a : attempt) :
  (countOf isTransportConnect (fst (createConnection st pc a)) <= 1)%nat.
Proof.
  unfold createConnection.
  destruct (nonNull _ && negb (truthy pc)); unfold countOf; simpl; auto.
Qed.

Lemma attemptOnce_one_connect (c : closure) (a : attempt) :
  (countOf isTransportConnect (traceOf (attemptOnce deps c a)) <= 1)%nat.
Proof.
  unfold attemptOnce, createAsyncActionWithStates, traceOf.
  pose proof (createConnection_one_connect (stateAtConnect a) (pairingCode c) a)
    as H0.
  destruct (createConnection _ _ _) as [t [result|e|]]; cbn [fst snd] in *.
  - pose proof (onSuccessfulConnect_no_connect c result (stateAtSuccess a))
      as H1.
    destruct (onSuccessfulConnect _ _ _) as [[c1 t1] [e|]]; cbn [fst snd] in *.
    + pose proof (onDisconnect_no_connect deps c1 e (jitterSample a)) as H2.
      destruct (onDisconnect _ _ _ _) as [t' [e'|j]]; cbn [fst snd] in *;
        rewrite !countOf_app; lia.
    + rewrite countOf_app. lia.
  - pose proof (onDisconnect_no_connect deps c e (jitterSample a)) as H2.
    destruct (onDisconnect _ _ _ _) as [t' [e'|j]]; cbn [fst snd] in *;
      rewrite countOf_app; lia.
  - exact H0.
Qed.

(** X3: A run that the environment answers for [n] attempts calls the
    transport's [connect] at most [n] times and sets at most [n] timers. *)
Theorem run_is_bounded (rest : list attempt) (c : closure) (a : attempt) :
  (countOf isTransportConnect (traceOf (doConnect deps c a rest))
   <= S (length rest))%nat /\
  (length (timeouts (traceOf (doConnect deps c a rest)))
   <= S (length rest))%nat.
Proof.
  split.
  - revert c a. induction rest as [|a' rest IH]; intros c a;
      rewrite doConnect_unfold;
      pose proof (attemptOnce_one_connect c a) as Ha;
      destruct (outcomeOf (attemptOnce deps c a)) as [p|j];
      unfold traceOf in *; cbn [fst snd length] in *; try lia.
    rewrite countOf_app.
    pose proof (IH (closureOf (attemptOnce deps c a)) a'). lia.
  - destruct (doConnect_timeouts deps rest c a) as [k ->].
    rewrite length_map, length_firstn. simpl. lia.
Qed.

(** *** Listeners *)

(** A property of single effects holds for one pass through [doConnect] as
    soon as it holds for the three functions the pass is made of. *)
Lemma attemptOnce_Forall (P : effect -> Prop) (c : closure) (a : attempt) :
  Forall P (fst (createConnection (stateAtConnect a) (pairingCode c) a)) ->
  (forall r, Forall P (snd (fst (onSuccessfulConnect c r (stateAtSuccess a))))) ->
  (forall c' e, Forall P (fst (onDisconnect deps c' e (jitterSample a)))) ->
  Forall P (traceOf (attemptOnce deps c a)).
Proof.
  intros H0 H1 H2.
  unfold attemptOnce, createAsyncActionWithStates, traceOf.
  destruct (createConnection _ _ _) as [t [result|e|]]; cbn [fst snd] in *.
  - specialize (H1 result).
    destruct (onSuccessfulConnect _ _ _) as [[c1 t1] [e|]]; cbn [fst snd] in *.
    + specialize (H2 c1 e).
      destruct (onDisconnect _ _ _ _) as [t' [e'|j]]; cbn [fst snd] in *;
        repeat (apply Forall_app; split); assumption.
    + apply Forall_app; split; assumption.
  - specialize (H2 c e).
    destruct (onDisconnect _ _ _ _) as [t' [e'|j]]; cbn [fst snd] in *;
      apply Forall_app; split; assumption.
  - exact H0.
Qed.

Lemma createConnection_Forall (P : effect -> Prop) (st : appState)
    (pc : option string) (a : attempt) :
  (forall m, P (LogInfo m)) -> (forall o, P (TransportConnect o)) ->
  Forall P (fst (createConnection st pc a)).
Proof.
  intros Hl Ho. unfold createConnection.
  destruct (nonNull _ && negb (truthy pc)); repeat constructor; auto.
Qed.

Lemma onDisconnect_Forall (P : effect -> Prop) (c : closure) (e : error)
    (sample : Z) :
  Forall P teardown ->
  P (Dispatch (setPermanentPairingCode (Some ""))) ->
  (forall n, P (GetJitterDelay n)) -> (forall ms, P (LogReconnect ms)) ->
  (forall ms, P (SetTimeout ms)) ->
  Forall P (fst (onDisconnect deps c e sample)).
Proof.
  intros Ht Hp Hj Hl Hs. unfold onDisconnect.
  destruct (truthy (pairingCode c) && isUnrecoverableRequestError deps e);
    [|destruct (retry c || initiallyConnected c)]; cbn [fst];
    try apply Forall_app; try split; try exact Ht; repeat constructor; auto.
Qed.

Lemma onSuccessfulConnect_Forall (P : effect -> Prop) (c : closure)
    (r : connectionResult) (st : appState) :
  (forall x, P (Dispatch x)) ->
  Forall P (snd (fst (onSuccessfulConnect c r st))).
Proof.
  intros Hd. unfold onSuccessfulConnect.
  destruct (backendEnabled st); [destruct (resultRoomProfile r)|];
    repeat constructor; auto.
Qed.

Lemma attemptOnce_no_listener (c : closure) (a : attempt) :
  Forall (fun e => isAddListener e = false) (traceOf (attemptOnce deps c a)).
Proof.
  apply attemptOnce_Forall; intros.
  - apply createConnection_Forall; reflexivity.
  - apply onSuccessfulConnect_Forall; reflexivity.
  - apply onDisconnect_Forall; try reflexivity. repeat constructor.
Qed.

Lemma onDisconnect_no_listener (c : closure) (e : error) (sample : Z) :
  countOf isAddListener (fst (onDisconnect deps c e sample)) = 0%nat.
Proof.
  unfold onDisconnect.
  destruct (truthy (pairingCode c) && isUnrecoverableRequestError deps e);
    [|destruct (retry c || initiallyConnected c)]; reflexivity.
Qed.

Lemma doConnect_no_listener (rest : list attempt) (c : closure) (a : attempt) :
  countOf isAddListener (traceOf (doConnect deps c a rest)) = 0%nat.
Proof.
  apply countOf_zero.
  apply (doConnect_Forall (fun _ e => isAddListener e = false)).
  intros. apply attemptOnce_no_listener.
Qed.

Lemma invoke_listeners (c : closure) (i : invocation) :
  countOf isAddListener (snd (invoke deps c i))
  = if startsConnect i then 5%nat else 0%nat.
Proof.
  destruct i as [[|] a rest|e sample rest| | | |];
    cbn [invoke startsConnect]; try reflexivity.
  - unfold createSpotTVRemoteControlConnection.
    pose proof (doConnect_no_listener rest c a) as H. unfold traceOf in H.
    destruct (doConnect deps c a rest) as [[c' t] p]. cbn [fst snd] in *.
    rewrite countOf_app, H. reflexivity.
  - unfold onDisconnectListener.
    pose proof (onDisconnect_no_listener c e sample) as Hd.
    destruct (onDisconnect deps c e sample) as [t [e'|j]]; cbn [fst snd] in *;
      [exact Hd|].
    destruct rest as [|a rest]; cbn [fst snd]; [exact Hd|].
    pose proof (doConnect_no_listener rest c a) as H. unfold traceOf in H.
    destruct (doConnect deps c a rest) as [[c' t'] p]. cbn [fst snd] in *.
    rewrite countOf_app, Hd, H. reflexivity.
Qed.

(** X4: Listeners are registered when the thunk is called without a connection,
    five at a time, and nowhere else: neither a retry nor a disconnect event
    registers any, and none is ever removed, so after [n] such calls the
    trace holds [5 * n] registrations. *)
Theorem listeners_accumulate (calls : list invocation) (c : closure) :
  countOf isAddListener (snd (lifetime deps c calls))
  = (5 * length (List.filter startsConnect calls))%nat.
Proof.
  revert c. induction calls as [|i calls IH]; intros c; [reflexivity|].
  simpl lifetime. pose proof (invoke_listeners c i) as H1.
  destruct (invoke deps c i) as [c1 t]. cbn [fst snd] in *.
  pose proof (IH c1) as H2.
  destruct (lifetime deps c1 calls) as [c2 t']. cbn [fst snd] in *.
  rewrite countOf_app, H1, H2. simpl List.filter.
  destruct (startsConnect i); simpl length; lia.
Qed.

(** *** One pass through [doConnect], case by case *)

Lemma attemptOnce_shape (c : closure) (a : attempt) :
  let cc := createConnection (stateAtConnect a) (pairingCode c) a in
  match snd cc with
  | Pending => attemptOnce deps c a = (c, fst cc, Done Pending)
  | Rejected e =>
      let d := onDisconnect deps c e (jitterSample a) in
      attemptOnce deps c a =
      (c, fst cc ++ fst d,
       match snd d with
       | Throw e' => Done (Rejected e')
       | RetryAfter j => Again j
       end)
  | Fulfilled r =>
      let sc := onSuccessfulConnect c r (stateAtSuccess a) in
      match snd sc with
      | None =>
          attemptOnce deps c a =
          (setInitiallyConnected c true, fst cc ++ snd (fst sc),
           Done (Fulfilled tt))
      | Some e =>
          let d := onDisconnect deps (setInitiallyConnected c true) e
                     (jitterSample a) in
          attemptOnce deps c a =
          (setInitiallyConnected c true, (fst cc ++ snd (fst sc)) ++ fst d,
           match snd d with
           | Throw e' => Done (Rejected e')
           | RetryAfter j => Again j
           end)
      end
  end.
Proof.
  unfold attemptOnce, createAsyncActionWithStates.
  destruct (createConnection _ _ _) as [t [r|e|]]; cbn [fst snd].
  - unfold onSuccessfulConnect.
    destruct (backendEnabled _); [destruct (resultRoomProfile r)|];
      cbn [fst snd]; try reflexivity.
    destruct (onDisconnect _ _ _ _) as [t' [e'|j]]; reflexivity.
  - destruct (onDisconnect _ _ _ _) as [t' [e'|j]]; reflexivity.
  - reflexivity.
Qed.

(** *** The join code the store is left with *)

Lemma joinCodes_app (t t' : list effect) :
  joinCodes (t ++ t') = joinCodes t ++ joinCodes t'.
Proof. apply flat_map_app. Qed.

Lemma lastJoinCode_app (t t' : list effect) :
  lastJoinCode (t ++ t') =
  match lastJoinCode t' with
  | Some x => Some x
  | None => lastJoinCode t
  end.
Proof.
  unfold lastJoinCode. rewrite joinCodes_app, fold_left_app.
  generalize (fold_left (fun _ c => Some c) (joinCodes t) None).
  induction (joinCodes t') as [|x l IH] using rev_ind; intros o;
    [reflexivity|].
  rewrite !fold_left_app. reflexivity.
Qed.

Lemma createConnection_joinCodes (st : appState) (pc : option string)
    (a : attempt) :
  lastJoinCode (fst (createConnection st pc a)) = None.
Proof.
  unfold createConnection.
  destruct (nonNull _ && negb (truthy pc)); reflexivity.
Qed.

Lemma createConnection_fulfilled (st : appState) (pc : option string)
    (a : attempt) (r : connectionResult) :
  snd (createConnection st pc a) = Fulfilled r ->
  isFulfilled (connectAnswer a) = true /\
  connectAnswer a = Fulfilled (resultRoomProfile r) /\
  remoteJoinCode r = joinCodeAnswer a /\
  permanentPairingCode r = pc.
Proof.
  unfold createConnection.
  destruct (nonNull _ && negb (truthy pc)); cbn [snd]; [discriminate|].
  destruct (connectAnswer a); try discriminate.
  intros [= <-]. auto.
Qed.

Lemma onSuccessfulConnect_joinCodes (c : closure) (r : connectionResult)
    (st : appState) :
  lastJoinCode (snd (fst (onSuccessfulConnect c r st)))
  = Some (remoteJoinCode r).
Proof.
  unfold onSuccessfulConnect.
  destruct (backendEnabled st); [destruct (resultRoomProfile r)|]; reflexivity.
Qed.

Lemma onDisconnect_joinCodes (c : closure) (e : error) (sample : Z) :
  lastJoinCode (fst (onDisconnect deps c e sample)) = Some "".
Proof.
  unfold onDisconnect.
  destruct (truthy (pairingCode c) && isUnrecoverableRequestError deps e);
    [|destruct (retry c || initiallyConnected c)]; reflexivity.
Qed.

Lemma attemptOnce_joinCode (c : closure) (a : attempt) :
  match outcomeOf (attemptOnce deps c a) with
  | Done (Fulfilled _) =>
      isFulfilled (connectAnswer a) = true /\
      lastJoinCode (traceOf (attemptOnce deps c a)) = Some (joinCodeAnswer a)
  | Done Pending => lastJoinCode (traceOf (attemptOnce deps c a)) = None
  | Done (Rejected _) | Again _ =>
      lastJoinCode (traceOf (attemptOnce deps c a)) = Some ""
  end.
Proof.
  pose proof (attemptOnce_shape c a) as H. cbv zeta in H.
  pose proof (createConnection_joinCodes (stateAtConnect a) (pairingCode c) a)
    as H0.
  pose proof (createConnection_fulfilled (stateAtConnect a) (pairingCode c) a)
    as Hf.
  destruct (snd (createConnection _ _ _)) as [r|e|].
  - destruct (Hf r eq_refl) as (Hful & _ & Hcode & _).
    pose proof (onSuccessfulConnect_joinCodes c r (stateAtSuccess a)) as H1.
    destruct (snd (onSuccessfulConnect _ _ _)) as [e|];
      rewrite H; unfold outcomeOf, traceOf; cbn [fst snd].
    + pose proof (onDisconnect_joinCodes (setInitiallyConnected c true) e
                    (jitterSample a)) as H2.
      destruct (snd (onDisconnect _ _ _ _));
        rewrite lastJoinCode_app, H2; reflexivity.
    + rewrite lastJoinCode_app, H1, Hcode. auto.
  - rewrite H; unfold outcomeOf, traceOf; cbn [fst snd].
    pose proof (onDisconnect_joinCodes c e (jitterSample a)) as H2.
    destruct (snd (onDisconnect _ _ _ _));
      rewrite lastJoinCode_app, H2; reflexivity.
  - rewrite H. exact H0.
Qed.

(** X5: The join code a run leaves in the store tells how the run went: after a
    rejection it is the empty string; after fulfilment it is the join code
    the transport gave in an attempt whose [connect] was fulfilled; while the
    promise is pending it is still unset or the empty string. *)
Theorem run_leaves_join_code (rest : list attempt) (c : closure)
    (a : attempt) :
  match outcomeOf (doConnect deps c a rest) with
  | Rejected _ => lastJoinCode (traceOf (doConnect deps c a rest)) = Some ""
  | Fulfilled _ =>
      exists a', In a' (a :: rest) /\
        isFulfilled (connectAnswer a') = true /\
        lastJoinCode (traceOf (doConnect deps c a rest))
          = Some (joinCodeAnswer a')
  | Pending =>
      lastJoinCode (traceOf (doConnect deps c a rest)) = None \/
      lastJoinCode (traceOf (doConnect deps c a rest)) = Some ""
  end.
Proof.
  revert c a. induction rest as [|a' rest IH]; intros c a;
    rewrite doConnect_unfold;
    pose proof (attemptOnce_joinCode c a) as Ha;
    destruct (outcomeOf (attemptOnce deps c a)) as [[u| e|]|j];
    unfold outcomeOf, traceOf in *; cbn [fst snd] in *;
    try (exists a; simpl; tauto); auto.
  rewrite lastJoinCode_app, Ha.
  specialize (IH (closureOf (attemptOnce deps c a)) a').
  destruct (snd (doConnect deps _ a' rest)) as [u|e|].
  - destruct IH as (a'' & Hin & Hful & ->).
    exists a''. split; [right; exact Hin | auto].
  - rewrite IH. reflexivity.
  - destruct IH as [-> | ->]; auto.
Qed.

(** *** When a run is rejected *)

Lemma onDisconnect_throws (c : closure) (e e' : error) (sample : Z) :
  snd (onDisconnect deps c e sample) = Throw e' ->
  e' = e /\
  (truthy (pairingCode c) && isUnrecoverableRequestError deps e = true \/
   gate c = false).
Proof.
  unfold onDisconnect, gate.
  destruct (truthy (pairingCode c) && isUnrecoverableRequestError deps e);
    [|destruct (retry c || initiallyConnected c)]; cbn [snd];
    intros [= <-]; auto.
Qed.

Lemma attemptOnce_rejects (c : closure) (a : attempt) (e : error) :
  outcomeOf (attemptOnce deps c a) = Done (Rejected e) ->
  truthy (pairingCode c) && isUnrecoverableRequestError deps e = true \/
  gate (closureOf (attemptOnce deps c a)) = false.
Proof.
  pose proof (attemptOnce_shape c a) as H. cbv zeta in H.
  destruct (snd (createConnection _ _ _)) as [r|e0|].
  - destruct (snd (onSuccessfulConnect _ _ _)) as [e0|];
      rewrite H; unfold outcomeOf, closureOf; cbn [fst snd];
      [|discriminate].
    pose proof (onDisconnect_throws (setInitiallyConnected c true) e0) as Hd.
    destruct (snd (onDisconnect _ _ _ _)) as [e'|j] eqn:Hs; [|discriminate].
    intros [= <-]. destruct (Hd _ _ Hs) as [-> Hor]. exact Hor.
  - rewrite H; unfold outcomeOf, closureOf; cbn [fst snd].
    pose proof (onDisconnect_throws c e0) as Hd.
    destruct (snd (onDisconnect _ _ _ _)) as [e'|j] eqn:Hs; [|discriminate].
    intros [= <-]. destruct (Hd _ _ Hs) as [-> Hor]. exact Hor.
  - rewrite H. discriminate.
Qed.

(** X6: A run is rejected only in two ways: with an error the transport
    classifies as unrecoverable, a pairing code having been supplied; or
    with [retry] false and [initiallyConnected] still false at the end.  So
    a closure with [retry] set and no pairing code never rejects. *)
Theorem rejection_needs_closed_gate (rest : list attempt) (c : closure)
    (a : attempt) (e : error) :
  outcomeOf (doConnect deps c a rest) = Rejected e ->
  (truthy (pairingCode c) = true /\
   isUnrecoverableRequestError deps e = true) \/
  (retry c = false /\
   initiallyConnected (closureOf (doConnect deps c a rest)) = false).
Proof.
  revert c a. induction rest as [|a' rest IH]; intros c a;
    rewrite doConnect_unfold;
    pose proof (attemptOnce_rejects c a e) as Ha;
    pose proof (evolves_request _ _ (attemptOnce_evolves deps c a))
      as [Hpc Hr];
    destruct (outcomeOf (attemptOnce deps c a)) as [p|j];
    unfold outcomeOf, closureOf in *; cbn [fst snd] in *;
    try discriminate.
  - intros ->. destruct (Ha eq_refl) as [H|H].
    + left. apply andb_true_iff, H.
    + right. unfold gate in H. apply orb_false_iff in H.
      rewrite Hr in H. exact H.
  - intros ->. destruct (Ha eq_refl) as [H|H].
    + left. apply andb_true_iff, H.
    + right. unfold gate in H. apply orb_false_iff in H.
      rewrite Hr in H. exact H.
  - intros H. destruct (IH _ a' H) as [[H1 H2]|[H1 H2]].
    + left. rewrite <- Hpc. auto.
    + right. rewrite <- Hr. auto.
Qed.

(** *** Who the device is *)

Lemma onSuccessfulConnect_identity (c : closure) (r : connectionResult)
    (st : appState) :
  match snd (onSuccessfulConnect c r st) with
  | Some _ =>
      backendEnabled st = true /\ resultRoomProfile r = None /\
      countOf isIdentity (snd (fst (onSuccessfulConnect c r st))) = 0%nat
  | None =>
      if backendEnabled st
      then exists rp t,
          resultRoomProfile r = Some rp /\
          countOf isIdentity t = 0%nat /\
          snd (fst (onSuccessfulConnect c r st)) =
          t ++ [ Dispatch (setSpotInstanceInfo true true (id rp));
                 Dispatch (setDisplayName (name rp)) ]
      else countOf isIdentity (snd (fst (onSuccessfulConnect c r st))) = 0%nat
  end.
Proof.
  unfold onSuccessfulConnect.
  destruct (backendEnabled st); [destruct (resultRoomProfile r) as [rp|]|];
    cbn [fst snd]; auto.
  eexists rp, _. split; [reflexivity|]. split; [|reflexivity]. reflexivity.
Qed.

Lemma attemptOnce_no_identity (c : closure) (a : attempt) :
  backendEnabled (stateAtSuccess a) = false ->
  Forall (fun e => isIdentity e = false) (traceOf (attemptOnce deps c a)).
Proof.
  intros Hb. apply attemptOnce_Forall; intros.
  - apply createConnection_Forall; reflexivity.
  - unfold onSuccessfulConnect. rewrite Hb. repeat constructor.
  - apply onDisconnect_Forall; try reflexivity. repeat constructor.
Qed.

(** X7: [setSpotInstanceInfo] and [setDisplayName] are dispatched only for a
    backend: a run in which no attempt sees the backend enabled after its
    connect dispatches neither; and an attempt that ends fulfilled with the
    backend enabled ends by dispatching both, from the room profile the
    transport's [connect] resolved with. *)
Theorem identity_needs_backend (c : closure) (a : attempt)
    (rest : list attempt) :
  (Forall (fun a' => backendEnabled (stateAtSuccess a') = false) (a :: rest) ->
   countOf isIdentity (traceOf (doConnect deps c a rest)) = 0%nat) /\
  (outcomeOf (attemptOnce deps c a) = Done (Fulfilled tt) ->
   backendEnabled (stateAtSuccess a) = true ->
   exists rp t,
     connectAnswer a = Fulfilled (Some rp) /\
     traceOf (attemptOnce deps c a) =
     t ++ [ Dispatch (setSpotInstanceInfo true true (id rp));
            Dispatch (setDisplayName (name rp)) ]).
Proof.
  split.
  - intros Hall. apply countOf_zero.
    apply (doConnect_Forall_on
             (fun a' => backendEnabled (stateAtSuccess a') = false)
             (fun _ e => isIdentity e = false)); [|exact Hall].
    intros. apply attemptOnce_no_identity. assumption.
  - intros Hout Hb.
    pose proof (attemptOnce_shape c a) as H. cbv zeta in H.
    pose proof (createConnection_fulfilled (stateAtConnect a) (pairingCode c) a)
      as Hf.
    destruct (snd (createConnection _ _ _)) as [r|e0|].
    + destruct (Hf r eq_refl) as (_ & Hans & _).
      pose proof (onSuccessfulConnect_identity c r (stateAtSuccess a)) as Hi.
      destruct (snd (onSuccessfulConnect _ _ _)) as [e0|].
      * rewrite H in Hout. unfold outcomeOf in Hout. cbn [snd] in Hout.
        destruct (snd (onDisconnect _ _ _ _)); discriminate.
      * rewrite Hb in Hi. destruct Hi as (rp & t & Hrp & _ & Ht).
        exists rp, (fst (createConnection (stateAtConnect a) (pairingCode c) a)
                      ++ t).
        split; [rewrite Hans, Hrp; reflexivity|].
        rewrite H. unfold traceOf. cbn [fst snd].
        rewrite Ht, app_assoc. reflexivity.
    + rewrite H in Hout. unfold outcomeOf in Hout. cbn [snd] in Hout.
      destruct (snd (onDisconnect _ _ _ _)); discriminate.
    + rewrite H in Hout. discriminate.
Qed.

End RunFacts.

(** ** Pairing with the backend *)

Section PairingFacts.

Context (deps : imports).



Lemma coreEffects_app (t t' : list thunkEffect) :
  coreEffects (t ++ t') = coreEffects t ++ coreEffects t'.
Proof. apply flat_map_app. Qed.

Lemma coreEffects_core (t : list effect) : coreEffects (map Core t) = t.
Proof. induction t as [|e t IH]; [reflexivity | simpl; f_equal; exact IH]. Qed.

Lemma coreEffects_status (s : pairingStatus) (t : list thunkEffect) :
  coreEffects (DispatchStatus s :: t) = coreEffects t.
Proof. reflexivity. Qed.


(** The connection thunk never disconnects the transport and never asks for
    a long lived pairing code. *)
Lemma connect_thunk_quiet (c : closure) (hasConnection : bool) (a : attempt)
    (rest : list attempt) :
  countOf isTransportDisconnect
    (traceOf (createSpotTVRemoteControlConnection deps c hasConnection a rest))
  = 0%nat /\
  countOf isGenerateRequest
    (traceOf (createSpotTVRemoteControlConnection deps c hasConnection a rest))
  = 0%nat.
Proof.
  assert (H : forall p : effect -> bool,
             (forall m, p (LogInfo m) = false) ->
             (forall o, p (TransportConnect o) = false) ->
             (forall x, p (Dispatch x) = false) ->
             (forall m, p (LogError m) = false) ->
             (forall n, p (GetJitterDelay n) = false) ->
             (forall ms, p (LogReconnect ms) = false) ->
             (forall ms, p (SetTimeout ms) = false) ->
             (forall u h, p (AddListener u h) = false) ->
             countOf p
               (traceOf (createSpotTVRemoteControlConnection deps c
                           hasConnection a rest)) = 0%nat).
  { intros p Hl Ho Hd He Hj Hr Hs Ha.
    unfold createSpotTVRemoteControlConnection.
    destruct hasConnection; [reflexivity|].
    assert (Hrun : countOf p (traceOf (doConnect deps c a rest)) = 0%nat).
    { apply countOf_zero.
      apply (doConnect_Forall deps (fun _ e => p e = false)).
      intros c0 a0. apply attemptOnce_Forall; intros.
      - apply createConnection_Forall; auto.
      - apply onSuccessfulConnect_Forall; auto.
      - apply onDisconnect_Forall; auto. repeat constructor; auto. }
    unfold traceOf in *.
    destruct (doConnect deps c a rest) as [[c' t] p']. cbn [fst snd] in *.
    rewrite countOf_app, Hrun. unfold countOf, registerListeners. simpl.
    rewrite !Ha. reflexivity. }
  split; apply H; reflexivity.
Qed.

(** X9: When the first connect of a pairing is rejected, whatever the error,
    nothing is retried: the promise is rejected with that error, no timer is
    set, no long lived pairing code is asked for and the transport is not
    disconnected. *)
Theorem pairing_fails_on_first_rejection (pc : option string) (a : attempt)
    (rest : list attempt) (generated : promise pairingCodeInfo)
    (later : bool) (disconnected : promise unit) (e : error) :
  snd (createConnection (stateAtConnect a) pc a) = Rejected e ->
  let run := pairWithBackend deps pc false a rest generated later
               disconnected in
  snd run = Rejected e /\
  timeouts (coreEffects (fst run)) = [] /\
  countOf isGenerateRequest (coreEffects (fst run)) = 0%nat /\
  countOf isTransportDisconnect (coreEffects (fst run)) = 0%nat.
Proof.
  intros Hrej run. subst run.
  pose proof (attemptOnce_rejected deps (newClosure pc false) a e Hrej)
    as Hstep.
  pose proof (onDisconnect_timer deps (newClosure pc false) e (jitterSample a))
    as Ht.
  assert (Hthrow : snd (onDisconnect deps (newClosure pc false) e
                          (jitterSample a)) = Throw e).
  { unfold onDisconnect.
    destruct (truthy _ && isUnrecoverableRequestError deps e); reflexivity. }
  rewrite Hthrow in Hstep, Ht. destruct Ht as (_ & Ht & _).
  pose proof (connect_thunk_quiet (newClosure pc false) false a rest)
    as [Hd Hg].
  pose proof (createConnection_quiet (stateAtConnect a) pc a) as [Hq _].
  assert (Hth : createSpotTVRemoteControlConnection deps (newClosure pc false)
                  false a rest
                = (newClosure pc false,
                   registerListeners
                     ++ fst (createConnection (stateAtConnect a) pc a)
                     ++ fst (onDisconnect deps (newClosure pc false) e
                               (jitterSample a)),
                   Rejected e)).
  { unfold createSpotTVRemoteControlConnection.
    rewrite doConnect_unfold, Hstep. reflexivity. }
  unfold pairWithBackend. rewrite Hth in *.
  unfold outcomeOf, traceOf in *. cbn [fst snd] in *.
  split; [reflexivity|].
  rewrite coreEffects_app, coreEffects_status, coreEffects_core.
  change (coreEffects [DispatchStatus SPOT_TV_PAIR_TO_BACKEND_FAIL])
    with (@nil effect).
  rewrite app_nil_r.
  split; [|split; assumption].
  rewrite !timeouts_app, Hq, Ht. reflexivity.
Qed.

(** X10: Pairing disconnects the transport in one case only: the connect was
    fulfilled, the request for a long lived pairing code was rejected, and
    the transport still reports a connection.  Then it disconnects once and
    the promise is rejected with the error of the request. *)
Theorem pairing_disconnects_on_failed_code (pc : option string)
    (hasConnection : bool) (a : attempt) (rest : list attempt)
    (generated : promise pairingCodeInfo) (later : bool)
    (disconnected : promise unit) :
  let connected :=
    createSpotTVRemoteControlConnection deps (newClosure pc false)
      hasConnection a rest in
  let run := pairWithBackend deps pc hasConnection a rest generated later
               disconnected in
  countOf isTransportDisconnect (coreEffects (fst run))
  = (if isFulfilled (outcomeOf connected) && isRejected generated && later
     then 1%nat else 0%nat) /\
  (forall e, isFulfilled (outcomeOf connected) = true ->
             generated = Rejected e -> snd run = Rejected e).
Proof.
  intros connected run. subst connected run.
  pose proof (connect_thunk_quiet (newClosure pc false) hasConnection a rest)
    as [Hd _].
  unfold pairWithBackend.
  destruct (outcomeOf _) as [u|e|]; [destruct generated as [i|e|]|..];
    cbn [fst snd generateLongLivedPairingCode isFulfilled isRejected andb];
    (split; [|intros; try discriminate; try congruence]);
    rewrite ?app_comm_cons, ?coreEffects_app;
    cbn [coreEffects flat_map app map];
    rewrite ?coreEffects_app, ?coreEffects_core, ?app_nil_r, ?countOf_app, ?Hd;
    try reflexivity.
  destruct later; reflexivity.
Qed.

End PairingFacts.

Lemma rejection_needs_closed_gate_witness :
  (truthy (Some "ABC123") = true /\
   isUnrecoverableRequestError sampleDeps (ErrString "unrecoverable-error")
     = true) \/
  (true = false /\
   initiallyConnected
     (closureOf
        (doConnect sampleDeps (newClosure (Some "ABC123") true)
           (sampleAttempt true (Rejected (ErrString "connection-lost")) 1)
           [ sampleAttempt true
               (Rejected (ErrString "unrecoverable-error")) 2 ]))
   = false).
Proof.
  exact (rejection_needs_closed_gate sampleDeps
           [ sampleAttempt true (Rejected (ErrString "unrecoverable-error")) 2 ]
           (newClosure (Some "ABC123") true)
           (sampleAttempt true (Rejected (ErrString "connection-lost")) 1)
           (ErrString "unrecoverable-error") eq_refl).
Defined.

Lemma identity_needs_backend_witness :
  countOf isIdentity
    (traceOf
       (doConnect sampleDeps (newClosure None true)
          (sampleAttempt false (Rejected (ErrString "down")) 1)
          [ sampleAttempt false (Fulfilled sampleRoom) 2 ]))
  = 0%nat /\
  exists rp t,
    connectAnswer (sampleAttempt true (Fulfilled sampleRoom) 1)
      = Fulfilled (Some rp) /\
    traceOf
      (attemptOnce sampleDeps (newClosure (Some "ABC123") false)
         (sampleAttempt true (Fulfilled sampleRoom) 1))
    = t ++ [ Dispatch (setSpotInstanceInfo true true (id rp));
             Dispatch (setDisplayName (name rp)) ].
Proof.
  split.
  - apply (proj1 (identity_needs_backend sampleDeps (newClosure None true)
                    (sampleAttempt false (Rejected (ErrString "down")) 1)
                    [ sampleAttempt false (Fulfilled sampleRoom) 2 ])).
    repeat constructor.
  - exact (proj2 (identity_needs_backend sampleDeps
                    (newClosure (Some "ABC123") false)
                    (sampleAttempt true (Fulfilled sampleRoom) 1) [])
             eq_refl eq_refl).
Defined.

Lemma pairing_fails_on_first_rejection_witness :
  snd (pairWithBackend sampleDeps None false
         (sampleAttempt true (Fulfilled sampleRoom) 1)
         [ sampleAttempt true (Fulfilled sampleRoom) 2 ]
         (Fulfilled {| code := "LONGCODE"; expires := 90000000 |})
         true (Fulfilled tt))
  = Rejected (ErrString validationMessage).
Proof.
  exact (proj1 (pairing_fails_on_first_rejection sampleDeps None
                  (sampleAttempt true (Fulfilled sampleRoom) 1)
                  [ sampleAttempt true (Fulfilled sampleRoom) 2 ]
                  (Fulfilled {| code := "LONGCODE"; expires := 90000000 |})
                  true (Fulfilled tt) (ErrString validationMessage) eq_refl)).
Defined.

Lemma pairing_disconnects_on_failed_code_witness :
  snd (pairWithBackend sampleDeps (Some "ABC123") false
         (sampleAttempt true (Fulfilled sampleRoom) 1) []
         (Rejected (ErrString "backend-down")) true Pending)
  = Rejected (ErrString "backend-down").
Proof.
  exact (proj2 (pairing_disconnects_on_failed_code sampleDeps (Some "ABC123")
                  false (sampleAttempt true (Fulfilled sampleRoom) 1) []
                  (Rejected (ErrString "backend-down")) true Pending)
           (ErrString "backend-down") eq_refl eq_refl).
Defined.

(** ** More on the long lived pairing code *)

Lemma storeAfter_refresh (state : appState) (now : Z)
    (answer : promise pairingCodeInfo) :
  storeAfter state
    (fst (generateLongLivedPairingCodeIfExpired state now answer))
  = match answer with
    | Fulfilled info => if stale state now then reduce state
                          (setLongLivedPairingCodeInfo info) else state
    | _ => state
    end.
Proof.
  rewrite generateLongLivedPairingCodeIfExpired_cases.
  destruct (stale state now), answer; reflexivity.
Qed.

(** X11: A refresh dispatches only when its request was granted: while the
    request is pending, or when it is rejected, nothing is dispatched, the
    store is as it was, and a rejection reaches the caller of the refresh. *)
Theorem failed_refresh_keeps_store (state : appState) (now : Z)
    (answer : promise pairingCodeInfo) :
  isFulfilled answer = false ->
  countOf isDispatch
    (fst (generateLongLivedPairingCodeIfExpired state now answer)) = 0%nat /\
  storeAfter state
    (fst (generateLongLivedPairingCodeIfExpired state now answer)) = state /\
  snd (generateLongLivedPairingCodeIfExpired state now answer)
  = if stale state now
    then match answer with
         | Rejected e => Rejected e
         | _ => Pending
         end
    else Fulfilled tt.
Proof.
  intros Hans. rewrite storeAfter_refresh.
  rewrite generateLongLivedPairingCodeIfExpired_cases.
  destruct answer; [discriminate|..]; destruct (stale state now);
    repeat split; reflexivity.
Qed.

Lemma failed_refresh_keeps_store_witness :
  storeAfter (sampleState true)
    (fst (generateLongLivedPairingCodeIfExpired (sampleState true) 1000
            (Rejected (ErrString "backend-down"))))
  = sampleState true.
Proof.
  exact (proj1 (proj2 (failed_refresh_keeps_store (sampleState true) 1000
                         (Rejected (ErrString "backend-down")) eq_refl))).
Defined.

(** X12: After a refresh that was granted a code with at least one hour left at
    the time of the next call, the next call asks for nothing. *)
Theorem fresh_code_stops_refresh (state : appState) (now1 now2 : Z)
    (info : pairingCodeInfo) (answer : promise pairingCodeInfo) :
  stale state now1 = true ->
  3600000 <= expires info - now2 ->
  generateLongLivedPairingCodeIfExpired
    (storeAfter state
       (fst (generateLongLivedPairingCodeIfExpired state now1 (Fulfilled info))))
    now2 answer
  = ([], Fulfilled tt).
Proof.
  intros Hs Hfresh. rewrite storeAfter_refresh, Hs.
  rewrite generateLongLivedPairingCodeIfExpired_cases.
  unfold stale, reduce. cbn [longLivedPairingCodeInfo].
  destruct (Z.ltb_spec (expires info - now2) 3600000); [lia | reflexivity].
Qed.

Lemma fresh_code_stops_refresh_witness :
  generateLongLivedPairingCodeIfExpired
    (storeAfter (sampleState true)
       (fst (generateLongLivedPairingCodeIfExpired (sampleState true) 1000
               (Fulfilled {| code := "LONGCODE"; expires := 90000000 |}))))
    5000 Pending
  = ([], Fulfilled tt).
Proof.
  apply fresh_code_stops_refresh; [reflexivity | vm_compute; discriminate].
Defined.

(** X13: A refresh that is due stays due: with the same stored code, a call at a
    later time asks the transport as well. *)
Theorem refresh_stays_due (state : appState) (now now' : Z)
    (answer answer' : promise pairingCodeInfo) :
  now <= now' ->
  countOf isGenerateRequest
    (fst (generateLongLivedPairingCodeIfExpired state now answer)) = 1%nat ->
  countOf isGenerateRequest
    (fst (generateLongLivedPairingCodeIfExpired state now' answer')) = 1%nat.
Proof.
  intros Hle. rewrite !generateLongLivedPairingCodeIfExpired_cases.
  unfold stale. destruct (longLivedPairingCodeInfo state) as [info|].
  - destruct (Z.ltb_spec (expires info - now) 3600000) as [Hlt|Hge];
      [|discriminate].
    intros _. destruct (Z.ltb_spec (expires info - now') 3600000); [|lia].
    destruct answer'; reflexivity.
  - intros _. destruct answer'; reflexivity.
Qed.

Lemma refresh_stays_due_witness :
  countOf isGenerateRequest
    (fst (generateLongLivedPairingCodeIfExpired
            {| backendEnabled := true; joinCodeRefreshRateOf := 3600000;
               remoteControlServerConfig := "xmpp";
               spotServicesConfig := "services";
               longLivedPairingCodeInfo :=
                 Some {| code := "OLDCODE1"; expires := 5000000 |} |}
            9000000 Pending))
  = 1%nat.
Proof.
  apply (refresh_stays_due _ 1400001 9000000 Pending Pending);
    [vm_compute; discriminate | reflexivity].
Defined.

(** ** Disconnecting the temporary remotes *)

Lemma firstRejection_spec (rs : list remoteRequest) :
  match firstRejection rs with
  | Some (t, e) =>
      exists r, In r rs /\ settles r = Rejected e /\ settledAt r = t /\
        forall r' e', In r' rs -> settles r' = Rejected e' ->
                      (t <= settledAt r')%nat
  | None => forall r e, In r rs -> settles r <> Rejected e
  end.
Proof.
  induction rs as [|r rs IH]; simpl; [tauto|].
  destruct (settles r) as [u|e|] eqn:Hr.
  - destruct (firstRejection rs) as [[t e]|].
    + destruct IH as (r0 & Hin & Hs & Ht & Hmin).
      exists r0. repeat split; auto.
      intros r' e' [<-|Hin'] Hs'; [congruence | eauto].
    + intros r' e' [<-|Hin']; [congruence | eauto].
  - destruct (firstRejection rs) as [[t e0]|].
    + destruct IH as (r0 & Hin & Hs & Ht & Hmin).
      destruct (Nat.leb_spec (settledAt r) t) as [Hle|Hgt].
      * exists r. repeat split; auto.
        intros r' e' [<-|Hin'] Hs'; [lia|].
        specialize (Hmin r' e' Hin' Hs'). lia.
      * exists r0. repeat split; auto.
        intros r' e' [<-|Hin'] Hs'; [lia | eauto].
    + exists r. repeat split; auto.
      intros r' e' [<-|Hin'] Hs'; [lia|]. exfalso. eapply IH; eauto.
  - destruct (firstRejection rs) as [[t e]|].
    + destruct IH as (r0 & Hin & Hs & Ht & Hmin).
      exists r0. repeat split; auto.
      intros r' e' [<-|Hin'] Hs'; [congruence | eauto].
    + intros r' e' [<-|Hin']; [congruence | eauto].
Qed.

(** X14: [disconnectAllTemporaryRemotes] asks the transport once per temporary
    remote.  Its promise is fulfilled exactly when every request is; it is
    rejected exactly when some request is, and then with the error of the
    request that was rejected earliest. *)
Theorem disconnect_all_temporary_remotes (remotes : list remoteRequest) :
  fst (disconnectAllTemporaryRemotes remotes)
  = map (fun r => DisconnectRemoteControl (remoteId r)) remotes /\
  length (fst (disconnectAllTemporaryRemotes remotes)) = length remotes /\
  (forallb (fun r => isFulfilled (settles r)) remotes = true <->
   snd (disconnectAllTemporaryRemotes remotes)
   = Fulfilled (map (fun _ => tt) remotes)) /\
  (forall e,
      snd (disconnectAllTemporaryRemotes remotes) = Rejected e ->
      exists r, In r remotes /\ settles r = Rejected e /\
        forall r' e', In r' remotes -> settles r' = Rejected e' ->
                      (settledAt r <= settledAt r')%nat) /\
  (forall r e, In r remotes -> settles r = Rejected e ->
               isRejected (snd (disconnectAllTemporaryRemotes remotes)) = true).
Proof.
  unfold disconnectAllTemporaryRemotes, promiseAll. cbn [fst snd].
  pose proof (firstRejection_spec remotes) as Hspec.
  split; [reflexivity|]. split; [apply length_map|].
  destruct (firstRejection remotes) as [[t e]|].
  - destruct Hspec as (r & Hin & Hs & Ht & Hmin). split; [|split].
    + split; [|discriminate]. intros Hall.
      rewrite forallb_forall in Hall. specialize (Hall r Hin).
      rewrite Hs in Hall. discriminate.
    + intros e' [= <-]. exists r. subst t. auto.
    + reflexivity.
  - split; [|split].
    + destruct (forallb _ remotes); split; auto; discriminate.
    + destruct (forallb _ remotes); discriminate.
    + intros r e Hin Hs. exfalso. eapply Hspec; eauto.
Qed.

Lemma disconnect_all_temporary_remotes_witness :
  exists r,
    In r sampleRemotes /\
    settles r = Rejected (ErrString "early") /\
    forall r' e',
      In r' sampleRemotes ->
      settles r' = Rejected e' -> (settledAt r <= settledAt r')%nat.
Proof.
  exact (proj1 (proj2 (proj2 (proj2
             (disconnect_all_temporary_remotes sampleRemotes))))
           (ErrString "early") eq_refl).
Defined.

(** ** Reloading the page *)

Lemma updateSpotTVSource_reloads (disconnected : promise unit) :
  In WindowReload (fst (updateSpotTVSource disconnected))
  <-> isFulfilled disconnected = true.
Proof.
  destruct disconnected; simpl; split; intros H;
    try discriminate; intuition discriminate.
Qed.

(** ** More on the [setup] reducer *)

Module SetupMore.
Import SetupReducer SetupTrace.

Lemma setup_insert (s : gmap string jsValue) (a : action) :
  setup (Some s) a =
  match target (type a) with
  | Some k => <[k := written a]> s
  | None => s
  end.
Proof. unfold setup, written; destruct (type a); reflexivity. Qed.

(** X15: Two actions that write different fields can be reduced in either
    order. *)
Theorem setup_commute (s : gmap string jsValue) (a b : action) :
  target (type a) ≠ target (type b) →
  setup (Some (setup (Some s) a)) b = setup (Some (setup (Some s) b)) a.
Proof.
  intros Hne. rewrite !setup_insert.
  destruct (target (type a)) as [ka|], (target (type b)) as [kb|];
    try reflexivity.
  apply insert_insert_ne. congruence.
Qed.

Lemma setup_commute_witness :
  setup (Some (setup (Some DEFAULT_STATE)
                 {| type := SETUP_COMPLETED; payload := ∅ |}))
    {| type := SET_IS_SPOT; payload := <["isSpot" := JBool true]> ∅ |}
  = setup (Some (setup (Some DEFAULT_STATE)
                   {| type := SET_IS_SPOT;
                      payload := <["isSpot" := JBool true]> ∅ |}))
      {| type := SETUP_COMPLETED; payload := ∅ |}.
Proof. apply setup_commute. discriminate. Defined.

(** X16: Of two actions that write the same field (or are both unhandled) only
    the second one counts. *)
Theorem setup_last_write_wins (s : gmap string jsValue) (a b : action) :
  target (type a) = target (type b) →
  setup (Some (setup (Some s) a)) b = setup (Some s) b.
Proof.
  intros Heq. rewrite !setup_insert, <- Heq.
  destruct (target (type a)) as [k|]; [apply insert_insert_eq | reflexivity].
Qed.

Lemma setup_last_write_wins_witness :
  setup (Some (setup (Some DEFAULT_STATE)
                 {| type := SET_DISPLAY_NAME;
                    payload := <["displayName" := JString "Lobby"]> ∅ |}))
    {| type := SET_DISPLAY_NAME;
       payload := <["displayName" := JString "Atrium"]> ∅ |}
  = setup (Some DEFAULT_STATE)
      {| type := SET_DISPLAY_NAME;
         payload := <["displayName" := JString "Atrium"]> ∅ |}.
Proof. apply setup_last_write_wins. reflexivity. Defined.

Lemma target_in_default (t : actionType) (k : string) :
  target t = Some k → k ∈ dom DEFAULT_STATE.
Proof.
  unfold DEFAULT_STATE. rewrite !dom_insert_L.
  destruct t; intros [= <-]; set_unfold; tauto.
Qed.

Lemma setup_dom (s : gmap string jsValue) (a : action) :
  dom DEFAULT_STATE ⊆ dom s → dom (setup (Some s) a) = dom s.
Proof.
  intros Hs. rewrite setup_insert.
  destruct (target (type a)) as [k|] eqn:Hk; [|reflexivity].
  rewrite dom_insert_L. apply target_in_default in Hk.
  apply subseteq_union_1_L, singleton_subseteq_l.
  exact (proj1 (elem_of_subseteq _ _) Hs k Hk).
Qed.

(** X17: A state that has the five fields of the default state keeps exactly its
    set of fields through any sequence of actions: the reducer neither drops
    nor adds a field. *)
Theorem run_keeps_fields (actions : list action) (s : gmap string jsValue) :
  dom DEFAULT_STATE ⊆ dom s → dom (run s actions) = dom s.
Proof.
  revert s. induction actions as [|a actions IH]; intros s Hs; [reflexivity|].
  unfold run in *. simpl. rewrite IH; rewrite setup_dom; done.
Qed.

Lemma run_keeps_fields_witness :
  dom (run (<["extra" := JNumber 1]> DEFAULT_STATE)
         [ {| type := SET_AVATAR_URL; payload := ∅ |};
           {| type := OTHER "@@INIT"; payload := ∅ |} ])
  = dom (<["extra" := JNumber 1]> DEFAULT_STATE).
Proof. apply run_keeps_fields. rewrite dom_insert_L. apply union_subseteq_r. Defined.

Lemma run_snoc (s : gmap string jsValue) (actions : list action) (a : action) :
  run s (actions ++ [a]) = setup (Some (run s actions)) a.
Proof. unfold run. rewrite fold_left_app. reflexivity. Qed.

(** X18: After any sequence of actions a field holds the value of the last action
    that writes it, and the value it had before when none does. *)
Theorem run_field (actions : list action) (s : gmap string jsValue)
    (k : string) :
  run s actions !! k =
  match lastWrite k actions with
  | Some v => Some v
  | None => s !! k
  end.
Proof.
  induction actions as [|a actions IH] using rev_ind; [reflexivity|].
  rewrite run_snoc, setup_insert. unfold lastWrite in *.
  rewrite fold_left_app. simpl.
  destruct (decide (target (type a) = Some k)) as [Ha|Ha].
  - rewrite Ha. apply lookup_insert_eq.
  - destruct (target (type a)) as [k'|]; [|exact IH].
    rewrite lookup_insert_ne by congruence. exact IH.
Qed.

Lemma completed_insert_other (s : gmap string jsValue) (k : string)
    (v : jsValue) :
  k ≠ "completed" → completed (<[k := v]> s) = completed s.
Proof. intros Hk. unfold completed. by rewrite lookup_insert_ne. Qed.

(** X19: The state is completed after a sequence of actions exactly when it was
    completed before or one of the actions is SETUP_COMPLETED. *)
Theorem run_completed (actions : list action) (s : gmap string jsValue) :
  completed (run s actions) = completed s || existsb completes actions.
Proof.
  revert s. induction actions as [|a actions IH]; intros s.
  - simpl. destruct (completed s); reflexivity.
  - change (run s (a :: actions)) with (run (setup (Some s) a) actions).
    rewrite IH. simpl. rewrite orb_assoc. f_equal.
    rewrite setup_insert. unfold completes, written.
    destruct (type a); simpl;
      rewrite ?orb_false_r; try (apply completed_insert_other; discriminate);
      try reflexivity.
    unfold completed. rewrite lookup_insert_eq. by rewrite orb_true_r.
Qed.

End SetupMore.
